(** * AI Nutritionist backend: the response parser and the food log

    A shallow embedding of [src/backend/main.py]: the line parser
    [parse_gemini_response], the four totals computed by the handlers
    [analyze_food] and [get_food_log], and the two process-wide lists
    [food_log] and [chat_history] those handlers read and extend.

    Modelling choices.
    - A Python [str] is a [string]: a sequence of 8-bit characters.  On
      such text the regular-expression class [\d] is exactly ['0'..'9'].
    - The dictionaries built by the parser only ever receive the six literal
      keys [timestamp], [name], [calories], [carbs], [proteins], [fats]; a
      dictionary is a record of six optional fields, [None] meaning that the
      key is not present.
    - A Python [float] obtained from a matched token is the exact decimal
      value the token denotes, a reduced rational.  The rounding of
      [float()] and of float addition to binary64, and the overflow of a
      very long token to infinity, are outside the model: what is proved
      about sums is proved about the exact values.
    - [datetime.now().strftime(...)] is read from an oracle [clock]: its
      [k]-th reading inside one call of the parser is [clock k].
    - An exception is a value of [exn]; fallible code returns [result]. *)

From Stdlib Require Import Bool Arith Lia List ZArith QArith Ascii String.
Import ListNotations.

Local Open Scope nat_scope.
Local Open Scope string_scope.
Local Open Scope list_scope.

(** ** Exceptions and fallible results *)

Inductive exn : Type :=
| ValueError
| IndexError.

Inductive result (A : Type) : Type :=
| Ok (a : A)
| Raise (e : exn).

Arguments Ok {A} a.
Arguments Raise {A} e.

Definition bind {A B : Type} (r : result A) (k : A -> result B) : result B :=
  match r with
  | Ok a => k a
  | Raise e => Raise e
  end.

Notation "x <- r ;; k" := (bind r (fun x => k))
  (at level 61, r at next level, right associativity).

(** [try: r except e: h] *)
Definition try_except {A : Type} (r : result A) (e : exn) (h : A) : result A :=
  match r with
  | Ok a => Ok a
  | Raise e' =>
      match e, e' with
      | ValueError, ValueError | IndexError, IndexError => Ok h
      | _, _ => Raise e'
      end
  end.

(** ** Python string operations *)

Module PyStr.

(** [s.startswith(p)] *)
Fixpoint startswith (p s : string) : bool :=
  match p, s with
  | EmptyString, _ => true
  | String a p', String b s' => Ascii.eqb a b && startswith p' s'
  | String _ _, EmptyString => false
  end.

(** [p in s] *)
Fixpoint contains (p s : string) : bool :=
  startswith p s ||
  match s with
  | EmptyString => false
  | String _ s' => contains p s'
  end.

(** [s[n:]] *)
Fixpoint drop (n : nat) (s : string) : string :=
  match n, s with
  | O, _ => s
  | S n', String _ s' => drop n' s'
  | S _, EmptyString => EmptyString
  end.

(** One left-to-right scan for [s.split(sep)] with a non-empty [sep]:
    [skip] counts the characters of a separator just recognised that are
    still to be passed over, [cur] is the piece being collected. *)
Fixpoint split_scan (sep : string) (skip : nat) (cur : string) (s : string)
  : list string :=
  match s with
  | EmptyString => [cur]
  | String c s' =>
      match skip with
      | S k => split_scan sep k cur s'
      | O =>
          if startswith sep s
          then cur :: split_scan sep (String.length sep - 1) EmptyString s'
          else split_scan sep O (cur ++ String c EmptyString) s'
      end
  end.

(** [s.split(sep)] *)
Definition split (sep s : string) : list string :=
  split_scan sep O EmptyString s.

(** [l[i]], raising [IndexError] out of range (non-negative [i]). *)
Definition index {A : Type} (l : list A) (i : nat) : result A :=
  match nth_error l i with
  | Some a => Ok a
  | None => Raise IndexError
  end.

End PyStr.

(** ** The regular expressions of the parser

    All four patterns have the shape [<label>([\d.]+)<unit>]: a literal, one
    capturing group that is a greedy non-empty run over the class [[\d.]],
    and a literal. *)

Module Re.

Definition is_digit (c : ascii) : bool :=
  let n := nat_of_ascii c in (48 <=? n)%nat && (n <=? 57)%nat.

(** The class [[\d.]]. *)
Definition in_class (c : ascii) : bool :=
  is_digit c || Ascii.eqb c "."%char.

(** Every character of [s] is in the class. *)
Fixpoint over_class (s : string) : bool :=
  match s with
  | EmptyString => true
  | String c s' => in_class c && over_class s'
  end.

(** [[\d.]*] followed by the literal [suffix], matched at the start of [s]:
    the run is extended as far as it goes and given back one character at a
    time until [suffix] follows.  The result is the text of the run. *)
Fixpoint class_star_then (suffix s : string) : option string :=
  match s with
  | EmptyString => if PyStr.startswith suffix s then Some EmptyString else None
  | String c s' =>
      if in_class c then
        match class_star_then suffix s' with
        | Some g => Some (String c g)
        | None => if PyStr.startswith suffix s then Some EmptyString else None
        end
      else if PyStr.startswith suffix s then Some EmptyString else None
  end.

(** [[\d.]+] followed by [suffix] at the start of [s]. *)
Definition class_plus_then (suffix s : string) : option string :=
  match s with
  | EmptyString => None
  | String c s' =>
      if in_class c then
        match class_star_then suffix s' with
        | Some g => Some (String c g)
        | None => None
        end
      else None
  end.

(** The whole pattern anchored at the start of [s]; the result is group 1. *)
Definition match_here (label suffix s : string) : option string :=
  if PyStr.startswith label s
  then class_plus_then suffix (PyStr.drop (String.length label) s)
  else None.

(** [re.search(pattern, s)]: the match at the leftmost position that has
    one; the result is [match.group(1)]. *)
Fixpoint search (label suffix s : string) : option string :=
  match match_here label suffix s with
  | Some g => Some g
  | None =>
      match s with
      | EmptyString => None
      | String _ s' => search label suffix s'
      end
  end.

End Re.

(** ** Numbers

    [float(token)] for a token over the class [[\d.]].  Python accepts such
    a token when it has at least one digit and at most one point
    (["95"], ["0.5"], ["1."], [".5"]) and raises [ValueError] otherwise
    (["."], ["1.2.3"]). *)

Definition pyfloat : Type := Q.

Bind Scope Q_scope with pyfloat.

Module Float.

Definition digit_value (c : ascii) : Z := Z.of_nat (nat_of_ascii c) - 48.

(** Scanner state: was the point seen, the digits read so far as an integer,
    the power of ten contributed by the digits after the point, and whether
    any digit was read at all. *)
Fixpoint scan (seen_dot : bool) (mant : Z) (den : positive) (any : bool)
  (s : string) : result pyfloat :=
  match s with
  | EmptyString =>
      if any then Ok (Qred (mant # den)) else Raise ValueError
  | String c s' =>
      if Re.is_digit c then
        scan seen_dot (10 * mant + digit_value c)
             (if seen_dot then 10 * den else den) true s'
      else if Ascii.eqb c "."%char then
        if seen_dot then Raise ValueError else scan true mant den any s'
      else Raise ValueError
  end.

(** [float(token)] *)
Definition of_token (token : string) : result pyfloat :=
  scan false 0 1 false token.

(** [a + b] on floats, kept reduced. *)
Definition add (a b : pyfloat) : pyfloat := Qred (a + b).

(** [sum(xs)]: Python folds from the left, starting at [0]. *)
Definition sum (xs : list pyfloat) : pyfloat := fold_left add xs 0%Q.

End Float.

(** ** Data model *)

(** One food-item dictionary. *)
Record FoodItem : Type := mkFoodItem {
  timestamp : option string;
  name : option string;
  calories : option pyfloat;
  carbs : option pyfloat;
  proteins : option pyfloat;
  fats : option pyfloat
}.

(** The empty dictionary [{}]. *)
Definition empty_item : FoodItem :=
  mkFoodItem None None None None None None.

Definition is_some {A : Type} (o : option A) : bool :=
  match o with Some _ => true | None => false end.

(** Truth value of a dictionary: true when it has at least one key. *)
Definition truthy (d : FoodItem) : bool :=
  is_some (timestamp d) || is_some (name d) || is_some (calories d)
  || is_some (carbs d) || is_some (proteins d) || is_some (fats d).

(** The four numeric keys. *)
Inductive field : Type := Calories | Carbs | Proteins | Fats.

(** [item.get(key)] for a numeric key. *)
Definition get (f : field) (d : FoodItem) : option pyfloat :=
  match f with
  | Calories => calories d
  | Carbs => carbs d
  | Proteins => proteins d
  | Fats => fats d
  end.

(** [item[key] = v] for a numeric key. *)
Definition set (f : field) (v : pyfloat) (d : FoodItem) : FoodItem :=
  match f with
  | Calories =>
      mkFoodItem (timestamp d) (name d) (Some v) (carbs d) (proteins d) (fats d)
  | Carbs =>
      mkFoodItem (timestamp d) (name d) (calories d) (Some v) (proteins d) (fats d)
  | Proteins =>
      mkFoodItem (timestamp d) (name d) (calories d) (carbs d) (Some v) (fats d)
  | Fats =>
      mkFoodItem (timestamp d) (name d) (calories d) (carbs d) (proteins d) (Some v)
  end.

(** [item.get(key, 0)] *)
Definition get_or_zero (f : field) (d : FoodItem) : pyfloat :=
  match get f d with
  | Some v => v
  | None => 0%Q
  end.

(** ** The parser *)

(** The substring test that selects a field branch, and the two literals of
    the branch's pattern. *)
Definition marker (f : field) : string :=
  match f with
  | Calories => "Calories:"
  | Carbs => "Carbs:"
  | Proteins => "Proteins:"
  | Fats => "Fats:"
  end.

Definition label (f : field) : string :=
  match f with
  | Calories => "Calories: "
  | Carbs => "Carbs: "
  | Proteins => "Proteins: "
  | Fats => "Fats: "
  end.

Definition unit_suffix (f : field) : string :=
  match f with
  | Calories => " kcal"
  | _ => " g"
  end.

(** The [try] statement of the item branch: the value stored under
    [name] is [line.split("Item: ")[1].split(" - ")[0]], or ["Unknown"]
    when a subscript raises [IndexError]. *)
Definition extract_name (line : string) : result string :=
  try_except
    (p <- PyStr.index (PyStr.split "Item: " line) 1 ;;
     PyStr.index (PyStr.split " - " p) 0)
    IndexError "Unknown".

(** The body of one of the four field branches: search the pattern, and on
    a match store the converted group under the branch's key. *)
Definition field_branch (f : field) (line : string) (cur : FoodItem)
  : result FoodItem :=
  match Re.search (label f) (unit_suffix f) line with
  | Some token => v <- Float.of_token token ;; Ok (set f v cur)
  | None => Ok cur
  end.

(** The local variables of the loop. *)
Record pstate : Type := mkPstate {
  food_items : list FoodItem;
  current_item : FoodItem;
  ticks : nat
}.

Section Parser.

Variable clock : nat -> string.

(** One iteration of [for line in lines]. *)
Definition parse_line (st : pstate) (line : string) : result pstate :=
  if PyStr.startswith "- Item:" line then
    let items :=
      if truthy (current_item st)
      then food_items st ++ [current_item st]
      else food_items st in
    n <- extract_name line ;;
    Ok (mkPstate items
          (mkFoodItem (Some (clock (ticks st))) (Some n) None None None None)
          (S (ticks st)))
  else if PyStr.contains (marker Calories) line then
    cur <- field_branch Calories line (current_item st) ;;
    Ok (mkPstate (food_items st) cur (ticks st))
  else if PyStr.contains (marker Carbs) line then
    cur <- field_branch Carbs line (current_item st) ;;
    Ok (mkPstate (food_items st) cur (ticks st))
  else if PyStr.contains (marker Proteins) line then
    cur <- field_branch Proteins line (current_item st) ;;
    Ok (mkPstate (food_items st) cur (ticks st))
  else if PyStr.contains (marker Fats) line then
    cur <- field_branch Fats line (current_item st) ;;
    Ok (mkPstate (food_items st) cur (ticks st))
  else Ok st.

(** The loop over the lines. *)
Fixpoint parse_lines (st : pstate) (lines : list string) : result pstate :=
  match lines with
  | [] => Ok st
  | line :: rest => st' <- parse_line st line ;; parse_lines st' rest
  end.

(** The statements after the loop. *)
Definition finish (st : pstate) : list FoodItem :=
  if truthy (current_item st)
  then food_items st ++ [current_item st]
  else food_items st.

Definition parse_gemini_response (response_text : string)
  : result (list FoodItem) :=
  let lines := PyStr.split (String (ascii_of_nat 10) EmptyString) response_text in
  st <- parse_lines (mkPstate [] empty_item 0) lines ;;
  Ok (finish st).

End Parser.

(** ** The stored state and the request handlers *)

(** One entry of [chat_history]: [{"user": ..., "bot": ...}]. *)
Record ChatTurn : Type := mkChatTurn {
  user : string;
  bot : string
}.

(** The two module-level lists. *)
Record store : Type := mkStore {
  food_log : list FoodItem;
  chat_history : list ChatTurn
}.

(** The lists as they are when the module has just been loaded. *)
Definition initial_store : store := mkStore [] [].

(** [l.extend(items)] *)
Definition extend {A : Type} (l items : list A) : list A := l ++ items.

(** [l.append(x)] *)
Definition append {A : Type} (l : list A) (x : A) : list A := l ++ [x].

(** The [summary] dictionary. *)
Record Summary : Type := mkSummary {
  total_calories : pyfloat;
  total_carbs : pyfloat;
  total_proteins : pyfloat;
  total_fats : pyfloat
}.

(** [sum(item.get(key, 0) for item in food_log)] *)
Definition total_of (f : field) (log : list FoodItem) : pyfloat :=
  Float.sum (map (get_or_zero f) log).

(** The summary computed, with the same four expressions, by
    [analyze_food] and by [get_food_log]. *)
Definition summarize (log : list FoodItem) : Summary :=
  mkSummary (total_of Calories log) (total_of Carbs log)
            (total_of Proteins log) (total_of Fats log).

Definition total (f : field) (s : Summary) : pyfloat :=
  match f with
  | Calories => total_calories s
  | Carbs => total_carbs s
  | Proteins => total_proteins s
  | Fats => total_fats s
  end.

(** What a handler hands back: a body, or an [HTTPException] with its
    status code. *)
Inductive response (A : Type) : Type :=
| Returned (body : A)
| HTTPError (status : nat).

Arguments Returned {A} body.
Arguments HTTPError {A} status.

(** One call of [model.generate_content]: it raises, or it returns a
    response whose [text] is read afterwards ([None]: reading it raises). *)
Inductive generation : Type :=
| Failed
| Generated (text : option string).

(** The inner [try]/[except] around the model call: a second call when the
    first one raised. *)
Definition generate (primary fallback : generation) : generation :=
  match primary with
  | Failed => fallback
  | Generated t => Generated t
  end.

(** Everything [analyze_food] receives from outside: the upload, what the
    two model calls do, and the clock read by the parser. *)
Record upload : Type := mkUpload {
  content_type : option string;
  content_length : N;
  image_primary : generation;
  image_fallback : generation;
  upload_clock : nat -> string
}.

Record analysis : Type := mkAnalysis {
  analysis_text : string;
  analysis_items : list FoodItem;
  analysis_log : list FoodItem;
  analysis_summary : Summary
}.

Definition is_empty (s : string) : bool :=
  match s with EmptyString => true | _ => false end.

(** [analyze_food]: every exception raised in the body, the two
    [HTTPException(400)] included, reaches [except Exception] and is raised
    again with status 500. *)
Definition analyze_food (s : store) (u : upload) : store * response analysis :=
  match content_type u with
  | None => (s, HTTPError 500)
  | Some ct =>
      if negb (PyStr.startswith "image/" ct) then (s, HTTPError 500)
      else if (5 * 1024 * 1024 <? content_length u)%N then (s, HTTPError 500)
      else
        match generate (image_primary u) (image_fallback u) with
        | Failed => (s, HTTPError 500)
        | Generated None => (s, HTTPError 500)
        | Generated (Some text) =>
            if is_empty text then (s, HTTPError 500)
            else
              match parse_gemini_response (upload_clock u) text with
              | Raise _ => (s, HTTPError 500)
              | Ok items =>
                  let log := extend (food_log s) items in
                  (mkStore log (chat_history s),
                   Returned (mkAnalysis text items log (summarize log)))
              end
        end
  end.

(** Characters removed by [str.strip()] among the 8-bit ones. *)
Definition is_space (c : ascii) : bool :=
  let n := nat_of_ascii c in
  ((9 <=? n) && (n <=? 13) || (28 <=? n) && (n <=? 32)
   || (n =? 133) || (n =? 160))%nat.

(** [not message.strip()] *)
Fixpoint blank (s : string) : bool :=
  match s with
  | EmptyString => true
  | String c s' => is_space c && blank s'
  end.

Record chat_request : Type := mkChatRequest {
  message : string;
  chat_primary : generation;
  chat_fallback : generation
}.

(** [chat_with_nutritionist] *)
Definition chat_with_nutritionist (s : store) (r : chat_request)
  : store * response string :=
  if blank (message r) then (s, HTTPError 500)
  else
    match generate (chat_primary r) (chat_fallback r) with
    | Failed => (s, HTTPError 500)
    | Generated None => (s, HTTPError 500)
    | Generated (Some text) =>
        if is_empty text then (s, HTTPError 500)
        else
          (mkStore (food_log s)
                   (append (chat_history s) (mkChatTurn (message r) text)),
           Returned text)
    end.

(** [get_food_log] *)
Definition get_food_log (s : store)
  : store * response (list FoodItem * Summary) :=
  (s, Returned (food_log s, summarize (food_log s))).

(** [get_chat_history] *)
Definition get_chat_history (s : store) : store * response (list ChatTurn) :=
  (s, Returned (chat_history s)).

(** The four routes, and the store after serving one request. *)
Inductive request : Type :=
| PostAnalyzeFood (u : upload)
| PostChat (r : chat_request)
| GetFoodLog
| GetChatHistory.

Definition serve (s : store) (q : request) : store :=
  match q with
  | PostAnalyzeFood u => fst (analyze_food s u)
  | PostChat r => fst (chat_with_nutritionist s r)
  | GetFoodLog => fst (get_food_log s)
  | GetChatHistory => fst (get_chat_history s)
  end.

(** The one route that writes to [food_log]. *)
Definition is_analysis (q : request) : bool :=
  match q with PostAnalyzeFood _ => true | _ => false end.

(** The store after a sequence of requests. *)
Definition serve_all (s : store) (qs : list request) : store :=
  fold_left serve qs s.

(** ** Reading the input the way the loop does

    The definitions of this section describe the input; they are what the
    theorems below compare the parser with. *)

Module PyStrSpec.

(** [s.partition(sep)]: the text before and after the first occurrence of
    [sep] in [s], [None] when [sep] does not occur. *)
Fixpoint partition (sep s : string) : option (string * string) :=
  if PyStr.startswith sep s
  then Some (EmptyString, PyStr.drop (String.length sep) s)
  else
    match s with
    | EmptyString => None
    | String c s' =>
        match partition sep s' with
        | Some (a, b) => Some (String c a, b)
        | None => None
        end
    end.

(** The text of [s] before the first occurrence of [sep], all of [s] when
    there is none. *)
Definition before (sep s : string) : string :=
  match partition sep s with
  | Some (a, _) => a
  | None => s
  end.

End PyStrSpec.

(** The name an item line gives to its record, in terms of first
    occurrences. *)
Definition item_name (line : string) : string :=
  match PyStrSpec.partition "Item: " line with
  | None => "Unknown"
  | Some (_, rest) => PyStrSpec.before " - " (PyStrSpec.before "Item: " rest)
  end.

Definition newline : string := String (ascii_of_nat 10) EmptyString.

(** [response_text.split('\n')] *)
Definition lines_of (text : string) : list string := PyStr.split newline text.

(** The test of the first branch. *)
Definition is_item (line : string) : bool := PyStr.startswith "- Item:" line.

Definition field_eqb (f g : field) : bool :=
  match f, g with
  | Calories, Calories | Carbs, Carbs | Proteins, Proteins | Fats, Fats => true
  | _, _ => false
  end.

(** The field branch the [elif] chain takes on a line that is not an item
    line: the first marker, in the order of the chain, the line contains. *)
Definition selected (line : string) : option field :=
  if PyStr.contains (marker Calories) line then Some Calories
  else if PyStr.contains (marker Carbs) line then Some Carbs
  else if PyStr.contains (marker Proteins) line then Some Proteins
  else if PyStr.contains (marker Fats) line then Some Fats
  else None.

(** Does the pattern of [f] match somewhere on the line? *)
Definition pattern_matches (f : field) (line : string) : bool :=
  is_some (Re.search (label f) (unit_suffix f) line).

(** The key a line assigns and the token it is assigned from: the line is
    not an item line, a branch is taken and its pattern matches. *)
Definition hit (line : string) : option (field * string) :=
  if is_item line then None
  else
    match selected line with
    | Some f =>
        match Re.search (label f) (unit_suffix f) line with
        | Some token => Some (f, token)
        | None => None
        end
    | None => None
    end.

(** The token of the last line of [body] that assigns [f]. *)
Fixpoint last_hit (f : field) (body : list string) : option string :=
  match body with
  | [] => None
  | line :: rest =>
      match last_hit f rest with
      | Some token => Some token
      | None =>
          match hit line with
          | Some (g, token) => if field_eqb f g then Some token else None
          | None => None
          end
      end
  end.

(** The lines before the first item line. *)
Fixpoint preamble (lines : list string) : list string :=
  match lines with
  | [] => []
  | line :: rest => if is_item line then [] else line :: preamble rest
  end.

(** An item line, the number of item lines before it, and the lines that
    follow it up to the next item line. *)
Record block : Type := mkBlock {
  header : string;
  position : nat;
  body : list string
}.

Fixpoint blocks (k : nat) (lines : list string) : list block :=
  match lines with
  | [] => []
  | line :: rest =>
      if is_item line
      then mkBlock line k (preamble rest) :: blocks (S k) rest
      else blocks k rest
  end.

(** Every token a line assigns from is accepted by [float]. *)
Definition convertible (line : string) : bool :=
  match hit line with
  | Some (_, token) =>
      match Float.of_token token with Ok _ => true | Raise _ => false end
  | None => true
  end.

(** No line assigns a key. *)
Definition silent (lines : list string) : bool :=
  forallb (fun line => negb (is_some (hit line))) lines.

(** A well-formed block of item lines: nothing is assigned before the first
    item line, and every number assigned after it is a decimal numeral. *)
Definition well_formed (text : string) : bool :=
  silent (preamble (lines_of text)) && forallb convertible (lines_of text).

(** A dictionary is the outcome of the lines [b] on the dictionary [d]:
    the two text keys are those of [d], and a numeric key holds the number
    of the last line of [b] that assigns it, or what [d] held. *)
Definition fed (d : FoodItem) (b : list string) (d' : FoodItem) : Prop :=
  timestamp d' = timestamp d /\ name d' = name d /\
  forall f,
    match last_hit f b with
    | Some token => exists v, Float.of_token token = Ok v /\ get f d' = Some v
    | None => get f d' = get f d
    end.

(** The lines read into each record, record by record: those before the
    first item line when they assign a key (they then produce a record of
    their own), and the lines following each item line. *)
Definition record_lines (lines : list string) : list (list string) :=
  (if silent (preamble lines) then [] else [preamble lines])
  ++ map body (blocks 0 lines).

(** The sum of a key over a log, a record that does not have the key
    counting for [0]. *)
Fixpoint field_sum (f : field) (log : list FoodItem) : Q :=
  match log with
  | [] => 0%Q
  | r :: rest =>
      (match get f r with Some v => v | None => 0 end + field_sum f rest)%Q
  end.

(** The dictionary an item line creates at clock reading [k]. *)
Definition fresh (clock : nat -> string) (k : nat) (line : string) : FoodItem :=
  mkFoodItem (Some (clock k)) (Some (item_name line)) None None None None.

(** ** Scenarios *)

Definition clock0 (k : nat) : string := "2024-05-01 12:00:00".

Definition apple_line : string :=
  "- Item: Apple - Calories: 95 kcal, Carbs: 25 g, Proteins: 0.5 g, Fats: 0.3 g".

Definition banana_line : string :=
  "- Item: Banana - Calories: 105 kcal, Carbs: 27 g, Proteins: 1.3 g, Fats: 0.4 g".

Definition apple_banana : string := apple_line ++ newline ++ banana_line.

Definition named (t n : string) : FoodItem :=
  mkFoodItem (Some t) (Some n) None None None None.

Definition only_calories (c : pyfloat) : FoodItem :=
  mkFoodItem None None (Some c) None None None.

Definition calories_and_carbs (c k : pyfloat) : FoodItem :=
  mkFoodItem None None (Some c) (Some k) None None.

Definition toast_record (clock : nat -> string) : FoodItem :=
  mkFoodItem (Some (clock 0)) (Some "Toast")
             (Some (151 # 2)%Q) (Some 13%Q) None None.

Definition egg_record (clock : nat -> string) : FoodItem :=
  mkFoodItem (Some (clock 1)) (Some "Egg") None None (Some (63 # 10)%Q) None.

Definition multi_line_block : string :=
  "- Item: Toast" ++ newline ++ "Calories: 75.5 kcal" ++ newline
  ++ "Carbs: 13 g" ++ newline ++ "- Item: Egg - boiled" ++ newline
  ++ "Proteins: 6.3 g".

(** ** Further descriptions of strings, tokens and stores *)

(** [sep.join(pieces)] *)
Fixpoint join (sep : string) (pieces : list string) : string :=
  match pieces with
  | [] => EmptyString
  | p :: rest =>
      match rest with
      | [] => p
      | _ :: _ => p ++ sep ++ join sep rest
      end
  end.

(** [s.lstrip()], [s.rstrip()] and [s.strip()]. *)
Fixpoint lstrip (s : string) : string :=
  match s with
  | EmptyString => EmptyString
  | String c s' => if is_space c then lstrip s' else s
  end.

Fixpoint rstrip (s : string) : string :=
  match s with
  | EmptyString => EmptyString
  | String c s' =>
      match rstrip s' with
      | EmptyString => if is_space c then EmptyString else String c EmptyString
      | String d r => String c (String d r)
      end
  end.

Definition strip (s : string) : string := rstrip (lstrip s).

(** The number of points and of digits of a token. *)
Fixpoint points (s : string) : nat :=
  match s with
  | EmptyString => 0
  | String c s' => (if Ascii.eqb c "."%char then 1 else 0) + points s'
  end.

Fixpoint digits (s : string) : nat :=
  match s with
  | EmptyString => 0
  | String c s' => (if Re.is_digit c then 1 else 0) + digits s'
  end.

(** The clock as it is read after [n] earlier readings. *)
Definition later (clock : nat -> string) (n : nat) : nat -> string :=
  fun k => clock (n + k).

(** A record without its timestamp. *)
Definition untimed (r : FoodItem) : FoodItem :=
  mkFoodItem None (name r) (calories r) (carbs r) (proteins r) (fats r).

(** The number of item lines of a text. *)
Definition item_count (text : string) : nat :=
  List.length (filter is_item (lines_of text)).

(** No record of the log holds a negative number. *)
Definition nonneg_log (log : list FoodItem) : Prop :=
  Forall (fun r => forall f v, get f r = Some v -> (0 <= v)%Q) log.

(** The number of chat requests among [qs]. *)
Definition chat_count (qs : list request) : nat :=
  List.length (filter (fun q => match q with PostChat _ => true | _ => false end) qs).

(** A text whose only content is a [Carbs] number placed before a
    [Calories] number on the same line. *)
Definition carbs_then_calories : string := "Carbs: 5 g, Calories: 10 kcal".

Definition toast_text : string :=
  "- Item: Toast" ++ newline ++ "Calories: 75.5 kcal".

Definition good_upload (text : string) : upload :=
  mkUpload (Some "image/png") 1024 (Generated (Some text)) Failed clock0.

(** ** The log as the chat handler shows it to the model

    [chat_with_nutritionist] builds, for its prompt, one dictionary per
    record of the food log: the name and the timestamp as [get] finds them,
    and the four numeric keys read with [get(key, 0)]. *)

Record prompt_entry : Type := mkPromptEntry {
  entry_name : option string;
  entry_timestamp : option string;
  entry_calories : pyfloat;
  entry_carbs : pyfloat;
  entry_proteins : pyfloat;
  entry_fats : pyfloat
}.

Definition prompt_entry_of (item : FoodItem) : prompt_entry :=
  mkPromptEntry (name item) (timestamp item)
    (get_or_zero Calories item) (get_or_zero Carbs item)
    (get_or_zero Proteins item) (get_or_zero Fats item).

(** The list whose [str] is put into the prompt. *)
Definition food_log_entries (log : list FoodItem) : list prompt_entry :=
  map prompt_entry_of log.

Definition entry (f : field) (e : prompt_entry) : pyfloat :=
  match f with
  | Calories => entry_calories e
  | Carbs => entry_carbs e
  | Proteins => entry_proteins e
  | Fats => entry_fats e
  end.

(** ** The [try] statement of [analyze_food], exception by exception *)

(** What can be raised inside the [try]: an [HTTPException] with its
    status, or any other exception. *)
Inductive raised : Type :=
| RaisedHTTP (status : nat)
| RaisedOther.

(** The body of the [try]: the two rejections raise [HTTPException(400)],
    an empty model text raises [HTTPException(500)], and a missing content
    type, a model call that fails twice, a text that cannot be read and a
    parser error raise exceptions of other classes. *)
Definition analyze_food_body (s : store) (u : upload)
  : store * (analysis + raised) :=
  match content_type u with
  | None => (s, inr RaisedOther)
  | Some ct =>
      if negb (PyStr.startswith "image/" ct) then (s, inr (RaisedHTTP 400))
      else if (5 * 1024 * 1024 <? content_length u)%N
      then (s, inr (RaisedHTTP 400))
      else
        match generate (image_primary u) (image_fallback u) with
        | Failed => (s, inr RaisedOther)
        | Generated None => (s, inr RaisedOther)
        | Generated (Some text) =>
            if is_empty text then (s, inr (RaisedHTTP 500))
            else
              match parse_gemini_response (upload_clock u) text with
              | Raise _ => (s, inr RaisedOther)
              | Ok items =>
                  let log := extend (food_log s) items in
                  (mkStore log (chat_history s),
                   inl (mkAnalysis text items log (summarize log)))
              end
        end
  end.

(** [except Exception as e: raise HTTPException(status_code=500, ...)]:
    [HTTPException] is an [Exception], so the handler takes it too. *)
Definition except_exception {A : Type} (r : A + raised) : response A :=
  match r with
  | inl a => Returned a
  | inr _ => HTTPError 500
  end.

(** The [try] statement as a whole. *)
Definition analyze_food_try (s : store) (u : upload)
  : store * response analysis :=
  (fst (analyze_food_body s u), except_exception (snd (analyze_food_body s u))).

Definition text_upload : upload :=
  mkUpload (Some "text/plain") 10 (Generated (Some "x")) Failed clock0.

(** * Properties *)

(** ** Strings *)

Module PyStrFacts.
Import PyStr PyStrSpec.
Local Open Scope string_scope.

Lemma startswith_app (p t : string) : startswith p (p ++ t) = true.
Proof.
  induction p as [|a p IH]; simpl; [reflexivity|].
  now rewrite Ascii.eqb_refl, IH.
Qed.

Lemma startswith_split (p s : string) :
  startswith p s = true -> s = p ++ drop (String.length p) s.
Proof.
  revert s; induction p as [|a p IH]; intros s H; simpl in *; [reflexivity|].
  destruct s as [|b s]; [discriminate|].
  apply andb_true_iff in H as [Hab Hps].
  apply Ascii.eqb_eq in Hab; subst b.
  now rewrite <- (IH s Hps).
Qed.

Lemma startswith_iff (p s : string) :
  startswith p s = true <-> exists t, s = p ++ t.
Proof.
  split.
  - intros H. exists (drop (String.length p) s). now apply startswith_split.
  - intros [t ->]. apply startswith_app.
Qed.

Lemma drop_app (p t : string) : drop (String.length p) (p ++ t) = t.
Proof. induction p as [|a p IH]; simpl; [now destruct t | exact IH]. Qed.

Lemma app_empty_r (s : string) : s ++ "" = s.
Proof. induction s as [|a s IH]; simpl; [reflexivity | now rewrite IH]. Qed.

Lemma app_assoc (a b c : string) : (a ++ b) ++ c = a ++ (b ++ c).
Proof. induction a as [|x a IH]; simpl; [reflexivity | now rewrite IH]. Qed.

Lemma app_length (a b : string) :
  String.length (a ++ b) = String.length a + String.length b.
Proof. induction a as [|x a IH]; simpl; [reflexivity | now rewrite IH]. Qed.

Lemma app_inv_head (a b c : string) : a ++ b = a ++ c -> b = c.
Proof.
  induction a as [|x a IH]; simpl; intros H; [exact H|].
  injection H as H. now apply IH.
Qed.

(** [contains] finds exactly the occurrences. *)
Lemma contains_iff (p s : string) :
  contains p s = true <-> exists a b, s = a ++ p ++ b.
Proof.
  split.
  - induction s as [|c s IH]; simpl; intros H.
    + rewrite orb_false_r in H. apply startswith_iff in H as [t Ht].
      exists "", t. exact Ht.
    + apply orb_true_iff in H as [H|H].
      * apply startswith_iff in H as [t Ht]. exists "", t. exact Ht.
      * destruct (IH H) as (a & b & ->). now exists (String c a), b.
  - intros (a & b & ->). induction a as [|c a IH]; simpl.
    + destruct (p ++ b) eqn:E; simpl;
        rewrite <- E, startswith_app; reflexivity.
    + rewrite IH. apply orb_true_r.
Qed.

(** The three facts that say [partition] cuts at the first occurrence. *)
Lemma partition_some (sep s a b : string) :
  partition sep s = Some (a, b) -> s = a ++ sep ++ b.
Proof.
  revert a; induction s as [|c s IH]; intros a; simpl.
  - destruct (startswith sep "") eqn:E; [|discriminate].
    intros [= <- <-]. now apply startswith_split in E.
  - destruct (startswith sep (String c s)) eqn:E.
    + intros [= <- <-]. now apply startswith_split in E.
    + destruct (partition sep s) as [[a' b']|]; [|discriminate].
      intros [= <- <-]. simpl. now rewrite <- (IH a' eq_refl).
Qed.

Lemma partition_first (sep s a b : string) :
  partition sep s = Some (a, b) ->
  forall a' b', s = a' ++ sep ++ b' -> String.length a <= String.length a'.
Proof.
  revert a; induction s as [|c s IH]; intros a; simpl.
  - destruct (startswith sep ""); [|discriminate].
    intros [= <- <-] a' b' _. simpl. lia.
  - destruct (startswith sep (String c s)) eqn:E.
    + intros [= <- <-] a' b' _. simpl. lia.
    + destruct (partition sep s) as [[a0 b0]|]; [|discriminate].
      intros [= <- <-] a' b' H. destruct a' as [|c' a']; simpl in H.
      * rewrite H, startswith_app in E. discriminate.
      * injection H as _ H. simpl. apply le_n_S. now apply (IH a0 eq_refl a' b').
Qed.

Lemma partition_none (sep s : string) :
  partition sep s = None <-> contains sep s = false.
Proof.
  induction s as [|c s IH]; simpl.
  - destruct (startswith sep ""); simpl; split; congruence.
  - destruct (startswith sep (String c s)); simpl; [split; congruence|].
    rewrite <- IH. destruct (partition sep s) as [[a b]|]; split; congruence.
Qed.

(** [split] cuts at the first occurrence and goes on with the rest. *)
Lemma split_scan_skip (sep : string) (s : string) :
  forall k cur, split_scan sep k cur s = split_scan sep 0 cur (drop k s).
Proof.
  induction s as [|c s IH]; intros k cur.
  - now destruct k.
  - destruct k as [|k]; [reflexivity|]. simpl. apply IH.
Qed.

Lemma split_scan_partition (sep : string) :
  sep <> "" ->
  forall s cur,
    split_scan sep 0 cur s =
    match partition sep s with
    | Some (a, b) => (cur ++ a) :: split_scan sep 0 "" b
    | None => [cur ++ s]
    end.
Proof.
  intros Hsep. induction s as [|c s IH]; intros cur.
  - simpl. destruct sep; [congruence|]. simpl. now rewrite app_empty_r.
  - simpl. destruct (startswith sep (String c s)) eqn:E.
    + rewrite app_empty_r, split_scan_skip. do 2 f_equal.
      destruct sep; [congruence|]. simpl. now rewrite Nat.sub_0_r.
    + rewrite IH. destruct (partition sep s) as [[a b]|].
      * now rewrite app_assoc.
      * now rewrite app_assoc.
Qed.

Lemma split_partition (sep s : string) :
  sep <> "" ->
  split sep s =
  match partition sep s with
  | Some (a, b) => a :: split sep b
  | None => [s]
  end.
Proof.
  intros Hsep. unfold split. rewrite (split_scan_partition sep Hsep).
  now destruct (partition sep s) as [[a b]|].
Qed.

Lemma split_head (sep s : string) :
  sep <> "" -> nth_error (split sep s) 0 = Some (before sep s).
Proof.
  intros Hsep. rewrite (split_partition sep s Hsep). unfold before.
  now destruct (partition sep s) as [[a b]|].
Qed.

End PyStrFacts.

(** The name expression of the parser in terms of first occurrences: it
    always yields a name. *)
Lemma extract_name_item_name (line : string) :
  extract_name line = Ok (item_name line).
Proof.
  unfold extract_name, item_name, PyStr.index.
  rewrite PyStrFacts.split_partition by discriminate.
  destruct (PyStrSpec.partition "Item: " line) as [[a rest]|];
    [|reflexivity].
  change (nth_error (a :: PyStr.split "Item: " rest) 1)
    with (nth_error (PyStr.split "Item: " rest) 0).
  rewrite PyStrFacts.split_head by discriminate.
  cbn [bind]. now rewrite PyStrFacts.split_head by discriminate.
Qed.

(** ** Patterns and numbers *)

Lemma class_star_then_class (suffix s : string) :
  forall g, Re.class_star_then suffix s = Some g -> Re.over_class g = true.
Proof.
  induction s as [|c s IH]; intros g; simpl.
  - destruct (PyStr.startswith suffix ""); [|discriminate].
    now intros [= <-].
  - destruct (Re.in_class c) eqn:Hc.
    + destruct (Re.class_star_then suffix s) as [g'|].
      * intros [= <-]. simpl. now rewrite Hc, (IH g' eq_refl).
      * destruct (PyStr.startswith suffix (String c s)); [|discriminate].
        now intros [= <-].
    + destruct (PyStr.startswith suffix (String c s)); [|discriminate].
      now intros [= <-].
Qed.

(** The group of a match is a non-empty run of digits and points: [float]
    is only ever applied to such a token. *)
Lemma match_here_token (lbl suffix s token : string) :
  Re.match_here lbl suffix s = Some token ->
  Re.over_class token = true /\ token <> "".
Proof.
  unfold Re.match_here, Re.class_plus_then.
  destruct (PyStr.startswith lbl s); [|discriminate].
  destruct (PyStr.drop (String.length lbl) s) as [|d r]; [discriminate|].
  destruct (Re.in_class d) eqn:Hd; [|discriminate].
  destruct (Re.class_star_then suffix r) as [g|] eqn:Hg; [|discriminate].
  intros [= <-]. simpl. rewrite Hd, (class_star_then_class _ _ _ Hg).
  now split.
Qed.

Lemma search_token (lbl suffix s token : string) :
  Re.search lbl suffix s = Some token ->
  Re.over_class token = true /\ token <> "".
Proof.
  induction s as [|c s IH]; simpl.
  - destruct (Re.match_here lbl suffix "") as [g|] eqn:Hm; [|discriminate].
    intros [= <-]. exact (match_here_token _ _ _ _ Hm).
  - destruct (Re.match_here lbl suffix (String c s)) as [g|] eqn:Hm;
      [|exact IH].
    intros [= <-]. exact (match_here_token _ _ _ _ Hm).
Qed.

(** [float] raises nothing but [ValueError]. *)
Lemma scan_raise (token : string) :
  forall dot m dn any e,
    Float.scan dot m dn any token = Raise e -> e = ValueError.
Proof.
  induction token as [|c t IH]; intros dot m dn any e; simpl.
  - destruct any; congruence.
  - destruct (Re.is_digit c); [apply IH|].
    destruct (Ascii.eqb c "."); [|congruence].
    destruct dot; [congruence | apply IH].
Qed.

(** ** One line *)

Section ParserFacts.

Variable clock : nat -> string.

Lemma finish_app (st : pstate) :
  finish st =
  food_items st ++ (if truthy (current_item st) then [current_item st] else []).
Proof.
  unfold finish. destruct (truthy (current_item st)); [reflexivity|].
  now rewrite app_nil_r.
Qed.

(** An item line closes the dictionary under construction and opens a new
    one. *)
Lemma parse_line_item (st : pstate) (line : string) :
  is_item line = true ->
  parse_line clock st line =
  Ok (mkPstate (finish st) (fresh clock (ticks st) line) (S (ticks st))).
Proof.
  intros H. unfold parse_line. fold (is_item line).
  now rewrite H, extract_name_item_name.
Qed.

(** Any other line assigns at most one key of the dictionary under
    construction. *)
Lemma parse_line_field (st : pstate) (line : string) :
  is_item line = false ->
  parse_line clock st line =
  match hit line with
  | Some (f, token) =>
      v <- Float.of_token token ;;
      Ok (mkPstate (food_items st) (set f v (current_item st)) (ticks st))
  | None => Ok st
  end.
Proof.
  intros H. unfold parse_line, hit, selected, field_branch.
  fold (is_item line). rewrite H. destruct st as [items cur k]. cbn [food_items current_item ticks].
  repeat match goal with
         | |- context [if PyStr.contains ?m line then _ else _] =>
             destruct (PyStr.contains m line)
         end;
    try reflexivity;
    match goal with
    | |- context [Re.search ?l ?u line] => destruct (Re.search l u line)
    end;
    try reflexivity;
    match goal with
    | |- context [Float.of_token ?t] => destruct (Float.of_token t)
    end; reflexivity.
Qed.

Lemma get_set (f g : field) (v : pyfloat) (d : FoodItem) :
  get f (set g v d) = if field_eqb f g then Some v else get f d.
Proof. destruct f, g; reflexivity. Qed.

Lemma timestamp_set (g : field) (v : pyfloat) (d : FoodItem) :
  timestamp (set g v d) = timestamp d.
Proof. destruct g; reflexivity. Qed.

Lemma name_set (g : field) (v : pyfloat) (d : FoodItem) :
  name (set g v d) = name d.
Proof. destruct g; reflexivity. Qed.

Lemma field_eqb_eq (f g : field) : field_eqb f g = true <-> f = g.
Proof. destruct f, g; simpl; split; congruence. Qed.

(** ** A run of lines on one dictionary *)

Lemma fed_nil (d : FoodItem) : fed d [] d.
Proof. repeat split. Qed.

Lemma fed_skip (d d' : FoodItem) (line : string) (b : list string) :
  hit line = None -> fed d b d' -> fed d (line :: b) d'.
Proof.
  intros Hh (Ht & Hn & Hf). repeat split; try assumption.
  intros f. specialize (Hf f). simpl. rewrite Hh.
  now destruct (last_hit f b).
Qed.

Lemma fed_assign (d d' : FoodItem) (line : string) (b : list string)
  (g : field) (token : string) (v : pyfloat) :
  hit line = Some (g, token) -> Float.of_token token = Ok v ->
  fed (set g v d) b d' -> fed d (line :: b) d'.
Proof.
  intros Hh Hv (Ht & Hn & Hf). repeat split.
  - now rewrite Ht, timestamp_set.
  - now rewrite Hn, name_set.
  - intros f. specialize (Hf f). simpl. rewrite Hh.
    destruct (last_hit f b); [exact Hf|].
    rewrite get_set in Hf. destruct (field_eqb f g); [|exact Hf].
    now exists v.
Qed.

Lemma fed_named (d d' : FoodItem) (b : list string) :
  fed d b d' -> is_some (name d) = true -> truthy d' = true.
Proof.
  intros (_ & Hn & _) H. unfold truthy. rewrite Hn, H.
  now rewrite orb_true_r.
Qed.

(** ** The loop *)

(** The records the loop hands to [finish]: the dictionary that was under
    construction, after the lines up to the next item line, and one record
    per item line, each after the lines that follow it. *)
Lemma parse_lines_blocks (lines : list string) :
  forall st st',
    parse_lines clock st lines = Ok st' ->
    exists cur' rs,
      finish st' =
      food_items st ++ (if truthy cur' then [cur'] else []) ++ rs
      /\ fed (current_item st) (preamble lines) cur'
      /\ Forall2
           (fun r b => fed (fresh clock (position b) (header b)) (body b) r)
           rs (blocks (ticks st) lines).
Proof.
  induction lines as [|line rest IH]; intros st st' H; simpl in H.
  - injection H as <-. exists (current_item st), [].
    rewrite app_nil_r. split; [apply finish_app|].
    split; [apply fed_nil | constructor].
  - destruct (is_item line) eqn:Hi.
    + rewrite (parse_line_item st line Hi) in H. cbn [bind] in H.
      destruct (IH _ _ H) as (c1 & rs1 & Hfin & Hfed & Hall).
      cbn [food_items current_item ticks] in Hfin, Hfed, Hall.
      exists (current_item st), (c1 :: rs1). simpl. rewrite Hi.
      split; [|split; [apply fed_nil | now constructor]].
      rewrite Hfin, finish_app, (fed_named _ _ _ Hfed eq_refl).
      now rewrite <- app_assoc.
    + rewrite (parse_line_field st line Hi) in H. simpl. rewrite Hi.
      destruct (hit line) as [[g token]|] eqn:Hh.
      * destruct (Float.of_token token) as [v|e] eqn:Hv; [|discriminate].
        cbn [bind] in H.
        destruct (IH _ _ H) as (c1 & rs1 & Hfin & Hfed & Hall).
        cbn [food_items current_item ticks] in Hfin, Hfed, Hall.
        exists c1, rs1. split; [exact Hfin|]. split; [|exact Hall].
        now apply (fed_assign _ _ _ _ g token v).
      * cbn [bind] in H.
        destruct (IH _ _ H) as (c1 & rs1 & Hfin & Hfed & Hall).
        exists c1, rs1. split; [exact Hfin|]. split; [|exact Hall].
        now apply fed_skip.
Qed.

(** The loop ends normally exactly when every assigned token is a
    numeral; the only exception it can raise is [ValueError]. *)
Lemma parse_lines_ok (lines : list string) :
  forall st,
    forallb convertible lines = true ->
    exists st', parse_lines clock st lines = Ok st'.
Proof.
  induction lines as [|line rest IH]; intros st H; simpl in *.
  - now exists st.
  - apply andb_true_iff in H as [Hc Hr]. destruct (is_item line) eqn:Hi.
    + rewrite (parse_line_item st line Hi). cbn [bind]. now apply IH.
    + rewrite (parse_line_field st line Hi). unfold convertible in Hc.
      destruct (hit line) as [[g token]|]; [|now apply IH].
      destruct (Float.of_token token); [|discriminate].
      cbn [bind]. now apply IH.
Qed.

Lemma parse_lines_ok_inv (lines : list string) :
  forall st st',
    parse_lines clock st lines = Ok st' -> forallb convertible lines = true.
Proof.
  induction lines as [|line rest IH]; intros st st' H; simpl in *;
    [reflexivity|].
  destruct (is_item line) eqn:Hi.
  - rewrite (parse_line_item st line Hi) in H. cbn [bind] in H.
    rewrite (IH _ _ H), andb_true_r. unfold convertible, hit. now rewrite Hi.
  - rewrite (parse_line_field st line Hi) in H. unfold convertible at 1.
    destruct (hit line) as [[g token]|].
    + destruct (Float.of_token token) as [v|e'] eqn:Hv; [|discriminate].
      cbn [bind] in H. now rewrite (IH _ _ H).
    + cbn [bind] in H. now rewrite (IH _ _ H).
Qed.

Lemma parse_lines_raise (lines : list string) :
  forall st e,
    parse_lines clock st lines = Raise e ->
    e = ValueError /\ forallb convertible lines = false.
Proof.
  induction lines as [|line rest IH]; intros st e H; simpl in *;
    [discriminate|].
  destruct (is_item line) eqn:Hi.
  - rewrite (parse_line_item st line Hi) in H. cbn [bind] in H.
    destruct (IH _ _ H) as [-> Hr]. now rewrite Hr, andb_false_r.
  - rewrite (parse_line_field st line Hi) in H. unfold convertible at 1.
    destruct (hit line) as [[g token]|].
    + destruct (Float.of_token token) as [v|e'] eqn:Hv.
      * cbn [bind] in H. destruct (IH _ _ H) as [-> Hr].
        now rewrite Hr.
      * cbn [bind] in H. injection H as <-. split; [|reflexivity].
        exact (scan_raise _ _ _ _ _ _ Hv).
    + cbn [bind] in H. destruct (IH _ _ H) as [-> Hr]. now rewrite Hr.
Qed.

End ParserFacts.

(** ** The whole parser *)

Section ParserTheorems.

Variable clock : nat -> string.

Lemma silent_last_hit (b : list string) :
  silent b = true -> forall f, last_hit f b = None.
Proof.
  induction b as [|line rest IH]; intros H f; simpl in *; [reflexivity|].
  apply andb_true_iff in H as [Hl Hr]. rewrite (IH Hr f).
  now destruct (hit line).
Qed.

Lemma loud_last_hit (b : list string) :
  silent b = false -> exists f token, last_hit f b = Some token.
Proof.
  induction b as [|line rest IH]; intros H; simpl in *; [discriminate|].
  apply andb_false_iff in H as [Hl|Hr].
  - destruct (hit line) as [[g token]|]; [|discriminate].
    destruct (last_hit g rest) as [t|] eqn:E.
    + exists g, t. now rewrite E.
    + exists g, token. rewrite E.
      now rewrite (proj2 (field_eqb_eq g g) eq_refl).
  - destruct (IH Hr) as (f & token & E). exists f, token. now rewrite E.
Qed.

Lemma fed_empty_truthy (b : list string) (d : FoodItem) :
  fed empty_item b d -> truthy d = negb (silent b).
Proof.
  intros (Ht & Hn & Hf). destruct (silent b) eqn:Hs; simpl.
  - pose proof (silent_last_hit b Hs) as Hl.
    assert (Hg : forall f, get f d = None).
    { intros f. specialize (Hf f). rewrite (Hl f) in Hf.
      rewrite Hf. now destruct f. }
    unfold truthy. rewrite Ht, Hn.
    pose proof (Hg Calories) as H1. pose proof (Hg Carbs) as H2.
    pose proof (Hg Proteins) as H3. pose proof (Hg Fats) as H4.
    simpl in H1, H2, H3, H4. now rewrite H1, H2, H3, H4.
  - destruct (loud_last_hit b Hs) as (f & token & E).
    specialize (Hf f). rewrite E in Hf. destruct Hf as (v & _ & Hv).
    unfold truthy. destruct f; simpl in Hv; rewrite Hv; simpl;
      now rewrite ?orb_true_r.
Qed.

(** The records of the result, one by one. *)
Lemma parse_records (text : string) (items : list FoodItem) :
  parse_gemini_response clock text = Ok items ->
  exists first rs,
    items = first ++ rs
    /\ (silent (preamble (lines_of text)) = true -> first = [])
    /\ (silent (preamble (lines_of text)) = false ->
        exists d, first = [d] /\ fed empty_item (preamble (lines_of text)) d)
    /\ Forall2
         (fun r b => fed (fresh clock (position b) (header b)) (body b) r)
         rs (blocks 0 (lines_of text)).
Proof.
  unfold parse_gemini_response. fold newline. fold (lines_of text).
  destruct (parse_lines clock (mkPstate [] empty_item 0) (lines_of text))
    as [st'|e] eqn:H; [|discriminate].
  cbn [bind]. intros [= <-].
  destruct (parse_lines_blocks clock _ _ _ H) as (c & rs & Hfin & Hfed & Hall).
  cbn [food_items current_item ticks] in Hfin, Hfed, Hall.
  rewrite app_nil_l in Hfin.
  pose proof (fed_empty_truthy _ _ Hfed) as Ht.
  exists (if truthy c then [c] else []), rs.
  split; [exact Hfin|]. split; [|split; [|exact Hall]].
  - intros Hs. now rewrite Ht, Hs.
  - intros Hs. rewrite Ht, Hs. now exists c.
Qed.

(** The parser returns exactly when every assigned token is a numeral, and
    raises [ValueError] otherwise. *)
Lemma parse_returns_iff (text : string) :
  (forallb convertible (lines_of text) = true ->
   exists items, parse_gemini_response clock text = Ok items)
  /\ (forallb convertible (lines_of text) = false ->
      parse_gemini_response clock text = Raise ValueError).
Proof.
  unfold parse_gemini_response. fold newline. fold (lines_of text). split.
  - intros H.
    destruct (parse_lines_ok clock _ (mkPstate [] empty_item 0) H) as [st' E].
    rewrite E. cbn [bind]. now eexists.
  - intros H.
    destruct (parse_lines clock (mkPstate [] empty_item 0) (lines_of text))
      as [st'|e] eqn:E.
    + rewrite (parse_lines_ok_inv clock _ _ _ E) in H. discriminate.
    + destruct (parse_lines_raise clock _ _ _ E) as [-> _]. reflexivity.
Qed.

End ParserTheorems.

(** ** Scenarios and the name of an item *)

(** C1.  The Apple/Banana text, two item lines that carry their numbers on
    the item line itself.  Each line is taken by the item branch, so none of
    the four field branches runs on it: the parser returns two records named
    Apple and Banana that have no numeric key, and the four totals over
    these two records are [0], not [200], [52], [1.8] and [0.7]. *)
Theorem apple_banana_numbers_missing (clock : nat -> string) :
  parse_gemini_response clock apple_banana
  = Ok [named (clock 0) "Apple"; named (clock 1) "Banana"]
  /\ summarize [named (clock 0) "Apple"; named (clock 1) "Banana"]
     = mkSummary 0 0 0 0.
Proof. split; vm_compute; reflexivity. Qed.

(** C2, the claim as stated, fails: the line ["- Item: MysteryFood"] begins
    with the marker and has no [" - "], and its record is named
    [MysteryFood], not [Unknown]. *)
Lemma mystery_food_keeps_its_name :
  is_item "- Item: MysteryFood" = true
  /\ PyStr.contains " - " "- Item: MysteryFood" = false
  /\ parse_gemini_response clock0 "- Item: MysteryFood"
     = Ok [named (clock0 0) "MysteryFood"]
  /\ name (named (clock0 0) "MysteryFood") <> Some "Unknown".
Proof. repeat split; try (vm_compute; reflexivity). discriminate. Qed.

(** C2, amended.  A line that begins with ["- Item:"] opens a record that
    has a timestamp, a name and no numeric key.  The name is [Unknown] when
    the line does not contain ["Item: "] (the marker is not followed by a
    space).  Otherwise it is the text after the first ["Item: "], cut before
    the next ["Item: "] when there is one and then before the first [" - "]
    when there is one: with a single ["Item: "] on the line it is the text
    between ["Item: "] and the first [" - "] after it, and all the text
    after ["Item: "] when no [" - "] follows. *)
Theorem item_line_name (clock : nat -> string) (st : pstate) (line : string) :
  is_item line = true ->
  exists st',
    parse_line clock st line = Ok st'
    /\ timestamp (current_item st') = Some (clock (ticks st))
    /\ name (current_item st') = Some (item_name line)
    /\ (forall f, get f (current_item st') = None)
    /\ (PyStr.contains "Item: " line = false -> item_name line = "Unknown")
    /\ (forall a rest,
          PyStrSpec.partition "Item: " line = Some (a, rest) ->
          PyStr.contains "Item: " rest = false ->
          PyStr.contains " - " rest = false ->
          item_name line = rest)
    /\ (forall a rest n tail,
          PyStrSpec.partition "Item: " line = Some (a, rest) ->
          PyStr.contains "Item: " rest = false ->
          PyStrSpec.partition " - " rest = Some (n, tail) ->
          item_name line = n).
Proof.
  intros Hi. eexists. split; [apply (parse_line_item clock st line Hi)|].
  cbn [current_item fresh timestamp name].
  repeat split.
  - now intros [].
  - intros H. apply PyStrFacts.partition_none in H.
    unfold item_name. now rewrite H.
  - intros a rest Hp H1 H2. unfold item_name, PyStrSpec.before.
    apply PyStrFacts.partition_none in H1, H2. now rewrite Hp, H1, H2.
  - intros a rest n tail Hp H1 H2. unfold item_name, PyStrSpec.before.
    apply PyStrFacts.partition_none in H1. now rewrite Hp, H1, H2.
Qed.

Lemma item_line_name_witness :
  exists st',
    parse_line clock0 (mkPstate [] empty_item 0) "- Item: MysteryFood" = Ok st'
    /\ timestamp (current_item st') = Some (clock0 0)
    /\ name (current_item st') = Some "MysteryFood"
    /\ (forall f, get f (current_item st') = None)
    /\ (PyStr.contains "Item: " "- Item: MysteryFood" = false ->
        item_name "- Item: MysteryFood" = "Unknown")
    /\ (forall a rest,
          PyStrSpec.partition "Item: " "- Item: MysteryFood" = Some (a, rest) ->
          PyStr.contains "Item: " rest = false ->
          PyStr.contains " - " rest = false ->
          item_name "- Item: MysteryFood" = rest)
    /\ (forall a rest n tail,
          PyStrSpec.partition "Item: " "- Item: MysteryFood" = Some (a, rest) ->
          PyStr.contains "Item: " rest = false ->
          PyStrSpec.partition " - " rest = Some (n, tail) ->
          item_name "- Item: MysteryFood" = n).
Proof.
  exact (item_line_name clock0 (mkPstate [] empty_item 0)
           "- Item: MysteryFood" eq_refl).
Defined.

(** The sentinel is reached: the marker without the space after it. *)
Example marker_without_space (clock : nat -> string) :
  parse_gemini_response clock "- Item:MysteryFood"
  = Ok [named (clock 0) "Unknown"].
Proof. vm_compute. reflexivity. Qed.

(** A second ["Item: "] ends the name before a later [" - "] does. *)
Example second_marker_cuts_name :
  item_name "- Item: Rice Item: Beans - 2 cups" = "Rice ".
Proof. vm_compute. reflexivity. Qed.

(** C3.  The parser is not total: on the one-line text
    ["Calories: 1.2.3 kcal"] the pattern matches with the group ["1.2.3"],
    [float] rejects it, and nothing in the parser handles the
    [ValueError]. *)
Theorem parser_raises_on_two_points (clock : nat -> string) :
  lines_of "Calories: 1.2.3 kcal" = ["Calories: 1.2.3 kcal"]
  /\ hit "Calories: 1.2.3 kcal" = Some (Calories, "1.2.3")
  /\ Float.of_token "1.2.3" = Raise ValueError
  /\ parse_gemini_response clock "Calories: 1.2.3 kcal" = Raise ValueError.
Proof. repeat split; vm_compute; reflexivity. Qed.

(** The same with a group that has no digit at all. *)
Example parser_raises_on_dots (clock : nat -> string) :
  parse_gemini_response clock ("- Item: Soup" ++ newline ++ "Calories: ... kcal")
  = Raise ValueError.
Proof. vm_compute. reflexivity. Qed.

(** C4.  A text without any item line can produce a record: the one-line
    text ["Calories: 95 kcal"] has no line that starts with ["- Item:"], its
    number is stored in the dictionary the loop starts with, and that
    dictionary, now non-empty, is returned as a record with neither name nor
    timestamp. *)
Theorem field_line_without_item (clock : nat -> string) :
  forallb (fun line => negb (is_item line)) (lines_of "Calories: 95 kcal") = true
  /\ parse_gemini_response clock "Calories: 95 kcal" = Ok [only_calories 95].
Proof. split; vm_compute; reflexivity. Qed.

(** ** Records and item lines *)

Lemma blocks_header (lines : list string) :
  forall k, map header (blocks k lines) = filter is_item lines.
Proof.
  induction lines as [|line rest IH]; intros k; simpl; [reflexivity|].
  destruct (is_item line); simpl; now rewrite IH.
Qed.

Lemma blocks_position (lines : list string) :
  forall k,
    map position (blocks k lines) = seq k (List.length (filter is_item lines)).
Proof.
  induction lines as [|line rest IH]; intros k; simpl; [reflexivity|].
  destruct (is_item line); simpl; now rewrite IH.
Qed.

Lemma Forall2_map_eq {A B C : Type} (R : A -> B -> Prop)
  (g : A -> C) (h : B -> C) (l : list A) (l' : list B) :
  (forall a b, R a b -> g a = h b) -> Forall2 R l l' -> map g l = map h l'.
Proof.
  intros H HF. induction HF as [|a b l l' Hab _ IH]; simpl; [reflexivity|].
  now rewrite (H a b Hab), IH.
Qed.

Lemma Forall2_In_l {A B : Type} (R : A -> B -> Prop)
  (l : list A) (l' : list B) (a : A) :
  Forall2 R l l' -> In a l -> exists b, In b l' /\ R a b.
Proof.
  intros HF. induction HF as [|x y l l' Hxy _ IH]; intros Hin;
    [contradiction|].
  destruct Hin as [<-|Hin].
  - exists y. split; [now left | exact Hxy].
  - destruct (IH Hin) as (b & Hb & HR). exists b. split; [now right | exact HR].
Qed.

(** A text made of item lines only, the shape the prompt asks the model
    for, is well formed. *)
Lemma item_lines_well_formed (text : string) :
  forallb is_item (lines_of text) = true -> well_formed text = true.
Proof.
  unfold well_formed. intros H. apply andb_true_iff. split.
  - destruct (lines_of text) as [|line rest]; [reflexivity|].
    simpl in H. apply andb_true_iff in H as [H _]. simpl. now rewrite H.
  - induction (lines_of text) as [|line rest IH]; [reflexivity|].
    simpl in H. apply andb_true_iff in H as [Hl Hr]. simpl.
    rewrite (IH Hr), andb_true_r. unfold convertible, hit. now rewrite Hl.
Qed.

(** C5.  On a well-formed text (no line before the first item line assigns
    a number, and every number assigned is a decimal numeral) the parser
    returns, and it returns one record per line that starts with
    ["- Item:"], in the order of these lines: the names of the records are,
    position by position, the names of the item lines, the [i]-th record
    carries the [i]-th reading of the clock, and each record is the outcome
    of the lines between its item line and the next one. *)
Theorem one_record_per_item_line (clock : nat -> string) (text : string) :
  well_formed text = true ->
  exists items,
    parse_gemini_response clock text = Ok items
    /\ List.length items = List.length (filter is_item (lines_of text))
    /\ map name items
       = map (fun line => Some (item_name line))
             (filter is_item (lines_of text))
    /\ map timestamp items
       = map (fun k => Some (clock k)) (seq 0 (List.length items))
    /\ Forall2
         (fun r b => fed (fresh clock (position b) (header b)) (body b) r)
         items (blocks 0 (lines_of text)).
Proof.
  unfold well_formed. intros H. apply andb_true_iff in H as [Hs Hc].
  destruct (proj1 (parse_returns_iff clock text) Hc) as [items E].
  exists items. split; [exact E|].
  destruct (parse_records clock text items E) as (first & rs & -> & H1 & _ & HF).
  rewrite (H1 Hs). cbn [app].
  assert (Hn : map name rs
               = map (fun line => Some (item_name line))
                     (filter is_item (lines_of text))).
  { rewrite <- (blocks_header (lines_of text) 0), map_map.
    apply (Forall2_map_eq _ _ _ _ _ (fun r b Hrb => proj1 (proj2 Hrb)) HF). }
  assert (Hl : List.length rs = List.length (filter is_item (lines_of text))).
  { rewrite <- (length_map name rs), Hn. apply length_map. }
  repeat split; try assumption.
  rewrite Hl, <- (blocks_position (lines_of text) 0), map_map.
  apply (Forall2_map_eq _ _ _ _ _ (fun r b Hrb => proj1 Hrb) HF).
Qed.

Lemma one_record_per_item_line_witness :
  exists items,
    parse_gemini_response clock0 apple_banana = Ok items
    /\ List.length items = List.length (filter is_item (lines_of apple_banana))
    /\ map name items
       = map (fun line => Some (item_name line))
             (filter is_item (lines_of apple_banana))
    /\ map timestamp items
       = map (fun k => Some (clock0 k)) (seq 0 (List.length items))
    /\ Forall2
         (fun r b => fed (fresh clock0 (position b) (header b)) (body b) r)
         items (blocks 0 (lines_of apple_banana)).
Proof.
  apply (one_record_per_item_line clock0 apple_banana). vm_compute. reflexivity.
Defined.

(** A block whose numbers are on lines of their own is well formed too. *)
Example multi_line_block_parsed (clock : nat -> string) :
  well_formed multi_line_block = true
  /\ parse_gemini_response clock multi_line_block
     = Ok [toast_record clock; egg_record clock].
Proof. split; vm_compute; reflexivity. Qed.

(** ** Absent and present numbers *)

Lemma hit_pattern_matches (line : string) (f : field) (token : string) :
  hit line = Some (f, token) -> pattern_matches f line = true.
Proof.
  unfold hit, pattern_matches. destruct (is_item line); [discriminate|].
  destruct (selected line) as [g|]; [|discriminate].
  destruct (Re.search (label g) (unit_suffix g) line) eqn:E; [|discriminate].
  intros [= <- <-]. now rewrite E.
Qed.

Lemma last_hit_unmatched (f : field) (b : list string) :
  (forall line, In line b -> pattern_matches f line = false) ->
  last_hit f b = None.
Proof.
  induction b as [|line rest IH]; intros H; simpl; [reflexivity|].
  rewrite IH by (intros l Hl; apply H; now right).
  destruct (hit line) as [[g token]|] eqn:Hh; [|reflexivity].
  destruct (field_eqb f g) eqn:Hfg; [|reflexivity].
  apply field_eqb_eq in Hfg; subst g.
  apply hit_pattern_matches in Hh. rewrite (H line) in Hh; [discriminate|].
  now left.
Qed.

Lemma fed_unmatched (d r : FoodItem) (b : list string) (f : field) :
  fed d b r -> get f d = None ->
  (forall line, In line b -> pattern_matches f line = false) ->
  get f r = None.
Proof.
  intros (_ & _ & Hf) Hd H. specialize (Hf f).
  rewrite (last_hit_unmatched f b H) in Hf. congruence.
Qed.

Lemma Forall2_weaken {A B : Type} (R R' : A -> B -> Prop)
  (l : list A) (l' : list B) :
  (forall a b, R a b -> R' a b) -> Forall2 R l l' -> Forall2 R' l l'.
Proof.
  intros H HF. induction HF; constructor; auto.
Qed.

Lemma Forall2_map_r {A B C : Type} (R : A -> C -> Prop) (g : B -> C)
  (l : list A) (l' : list B) :
  Forall2 (fun a b => R a (g b)) l l' -> Forall2 R l (map g l').
Proof.
  intros HF. induction HF; simpl; constructor; auto.
Qed.

(** C8, the claim as stated, fails in its last clause: the totals are not
    the only place where an absent key is read as [0].  The record of
    ["- Item: MysteryFood"] has no [calories] key, and the dictionary the
    chat handler builds from it for its prompt has [calories] equal to
    [0]. *)
Lemma chat_prompt_defaults_to_zero :
  parse_gemini_response clock0 "- Item: MysteryFood"
  = Ok [named (clock0 0) "MysteryFood"]
  /\ get Calories (named (clock0 0) "MysteryFood") = None
  /\ food_log_entries [named (clock0 0) "MysteryFood"]
     = [mkPromptEntry (Some "MysteryFood") (Some (clock0 0)) 0 0 0 0].
Proof. repeat split; vm_compute; reflexivity. Qed.

(** C8, amended.  Every record the parser returns is read from its own
    lines (for a record opened by an item line, the lines after that line
    up to the next item line), and a numeric key whose pattern matches none
    of these lines is not in the record: [get] finds nothing, the parser
    stores no default.  The absent key is read as [0] wherever the log is
    read with [get(key, 0)]: when the totals are computed, and when the chat
    handler builds the dictionaries it shows to the model. *)
Theorem unmatched_field_absent (clock : nat -> string) (text : string)
  (items : list FoodItem) :
  parse_gemini_response clock text = Ok items ->
  Forall2
    (fun r own_lines =>
       forall f,
         (forall line, In line own_lines -> pattern_matches f line = false) ->
         get f r = None /\ get_or_zero f r = 0%Q
         /\ entry f (prompt_entry_of r) = 0%Q)
    items (record_lines (lines_of text)).
Proof.
  intros E.
  destruct (parse_records clock text items E) as (first & rs & -> & H1 & H2 & HF).
  assert (Hkey : forall d r b,
             (forall f, get f d = None) -> fed d b r ->
             forall f,
               (forall line, In line b -> pattern_matches f line = false) ->
               get f r = None /\ get_or_zero f r = 0%Q
               /\ entry f (prompt_entry_of r) = 0%Q).
  { intros d r b Hd Hfed f H.
    pose proof (fed_unmatched d r b f Hfed (Hd f) H) as Hg.
    assert (Hz : get_or_zero f r = 0%Q)
      by (unfold get_or_zero; now rewrite Hg).
    split; [exact Hg|]. split; [exact Hz|].
    rewrite <- Hz. now destruct f. }
  unfold record_lines. apply Forall2_app.
  - destruct (silent (preamble (lines_of text))) eqn:Hs.
    + rewrite (H1 eq_refl). constructor.
    + destruct (H2 eq_refl) as (d & -> & Hfed). constructor; [|constructor].
      apply (Hkey empty_item); [now intros [] | exact Hfed].
  - apply Forall2_map_r. revert HF. apply Forall2_weaken.
    intros r b Hfed.
    apply (Hkey (fresh clock (position b) (header b)) r (body b));
      [now intros [] | exact Hfed].
Qed.

Lemma unmatched_field_absent_witness :
  Forall2
    (fun r own_lines =>
       forall f,
         (forall line, In line own_lines -> pattern_matches f line = false) ->
         get f r = None /\ get_or_zero f r = 0%Q
         /\ entry f (prompt_entry_of r) = 0%Q)
    [toast_record clock0; egg_record clock0]
    (record_lines (lines_of multi_line_block)).
Proof.
  apply (unmatched_field_absent clock0 multi_line_block). vm_compute.
  reflexivity.
Defined.

Lemma is_digit_value (c : ascii) :
  Re.is_digit c = true -> (0 <= Float.digit_value c)%Z.
Proof.
  unfold Re.is_digit, Float.digit_value. intros H.
  apply andb_true_iff in H as [H _]. apply Nat.leb_le in H. lia.
Qed.

Lemma scan_nonneg (token : string) :
  forall dot m dn any v,
    (0 <= m)%Z -> Float.scan dot m dn any token = Ok v -> (0 <= v)%Q.
Proof.
  induction token as [|c t IH]; intros dot m dn any v Hm H;
    cbn [Float.scan] in H.
  - destruct any; [|discriminate].
    assert (Hv : v = Qred (m # dn)) by congruence.
    rewrite Hv, Qred_correct. unfold Qle. simpl. lia.
  - destruct (Re.is_digit c) eqn:Hd.
    + apply IH in H; [exact H|]. pose proof (is_digit_value c Hd). lia.
    + destruct (Ascii.eqb c "."); [|discriminate].
      destruct dot; [discriminate|]. now apply IH in H.
Qed.

Lemma fed_nonneg (d r : FoodItem) (b : list string) (f : field) (v : pyfloat) :
  fed d b r -> get f d = None -> get f r = Some v -> (0 <= v)%Q.
Proof.
  intros (_ & _ & Hf) Hd Hr. specialize (Hf f).
  destruct (last_hit f b) as [token|].
  - destruct Hf as (v' & Hv & Hg). rewrite Hr in Hg. injection Hg as ->.
    now apply (scan_nonneg token false 0%Z 1%positive false).
  - congruence.
Qed.

(** C9.  Every number stored in a record the parser returns is
    non-negative: it is the value of a token made of digits and points, and
    such a token carries no sign. *)
Theorem parsed_numbers_nonnegative (clock : nat -> string) (text : string)
  (items : list FoodItem) :
  parse_gemini_response clock text = Ok items ->
  forall r f v, In r items -> get f r = Some v -> (0 <= v)%Q.
Proof.
  intros E r f v Hin Hg.
  destruct (parse_records clock text items E) as (first & rs & -> & H1 & H2 & HF).
  apply in_app_or in Hin as [Hin|Hin].
  - destruct (silent (preamble (lines_of text))) eqn:Hs.
    + rewrite (H1 eq_refl) in Hin. contradiction.
    + destruct (H2 eq_refl) as (d & -> & Hfed).
      destruct Hin as [<-|[]].
      apply (fed_nonneg empty_item d _ f v Hfed); [now destruct f | exact Hg].
  - destruct (Forall2_In_l _ _ _ _ HF Hin) as (b & _ & Hfed).
    apply (fed_nonneg _ r _ f v Hfed); [now destruct f | exact Hg].
Qed.

Lemma parsed_numbers_nonnegative_witness :
  parse_gemini_response clock0 multi_line_block
  = Ok [toast_record clock0; egg_record clock0]
  /\ get Calories (toast_record clock0) = Some (151 # 2)%Q
  /\ (0 <= 151 # 2)%Q.
Proof.
  assert (E : parse_gemini_response clock0 multi_line_block
              = Ok [toast_record clock0; egg_record clock0])
    by (vm_compute; reflexivity).
  split; [exact E|]. split; [reflexivity|].
  apply (parsed_numbers_nonnegative clock0 multi_line_block _ E
           (toast_record clock0) Calories (151 # 2)%Q).
  - left. reflexivity.
  - reflexivity.
Defined.

(** ** Totals *)

Lemma fold_left_add (xs : list pyfloat) :
  forall acc,
    (fold_left Float.add xs acc == acc + fold_right Qplus 0 xs)%Q.
Proof.
  induction xs as [|x xs IH]; intros acc; simpl.
  - now rewrite Qplus_0_r.
  - rewrite IH. unfold Float.add. rewrite Qred_correct.
    symmetry. apply Qplus_assoc.
Qed.

Lemma total_of_field_sum (f : field) (log : list FoodItem) :
  (total_of f log == field_sum f log)%Q.
Proof.
  unfold total_of, Float.sum. rewrite fold_left_add, Qplus_0_l.
  induction log as [|r log IH]; simpl; [reflexivity|].
  unfold get_or_zero. now rewrite IH.
Qed.

(** C6.  Each of the four totals is the sum of its key over the records of
    the log, a record without the key counting for [0]; all four are [0] on
    the empty log, and on the log [[{calories: 100}, {calories: 50, carbs:
    10}]] they are [150], [10], [0] and [0]. *)
Theorem summarize_totals (log : list FoodItem) :
  (forall f, (total f (summarize log) == field_sum f log)%Q)
  /\ summarize [] = mkSummary 0 0 0 0
  /\ summarize [only_calories 100; calories_and_carbs 50 10]
     = mkSummary 150 10 0 0.
Proof.
  split; [|split; reflexivity].
  intros f. destruct f; apply total_of_field_sum.
Qed.

(** ** The stored state *)

Lemma analyze_food_log (s : store) (u : upload) :
  food_log (fst (analyze_food s u))
  = extend (food_log s)
      match snd (analyze_food s u) with
      | Returned a => analysis_items a
      | HTTPError _ => []
      end
  /\ chat_history (fst (analyze_food s u)) = chat_history s.
Proof.
  unfold analyze_food, extend.
  destruct (content_type u) as [ct|]; [|now rewrite app_nil_r].
  destruct (negb (PyStr.startswith "image/" ct)); [now rewrite app_nil_r|].
  destruct (5 * 1024 * 1024 <? content_length u)%N; [now rewrite app_nil_r|].
  destruct (generate (image_primary u) (image_fallback u)) as [|[text|]];
    try (now rewrite app_nil_r).
  destruct (is_empty text); [now rewrite app_nil_r|].
  destruct (parse_gemini_response (upload_clock u) text);
    [split; reflexivity | now rewrite app_nil_r].
Qed.

(** C7.  Extending a log with new items gives a log whose length is the sum
    of the two lengths, whose first records are the old log, unchanged and
    in order, and whose remaining records are the new items in order; this
    is the only change [analyze_food] makes to the stored state, with the
    parsed items as the new items (none when the request fails). *)
Theorem extend_keeps_log (log items : list FoodItem) (s : store) (u : upload) :
  (List.length (extend log items) = List.length log + List.length items
   /\ firstn (List.length log) (extend log items) = log
   /\ skipn (List.length log) (extend log items) = items)
  /\ food_log (fst (analyze_food s u))
     = extend (food_log s)
         match snd (analyze_food s u) with
         | Returned a => analysis_items a
         | HTTPError _ => []
         end
  /\ chat_history (fst (analyze_food s u)) = chat_history s.
Proof.
  split; [|apply analyze_food_log].
  unfold extend. split; [apply length_app|].
  split.
  - rewrite firstn_app, Nat.sub_diag, firstn_all. simpl. apply app_nil_r.
  - rewrite skipn_app, Nat.sub_diag, skipn_all. reflexivity.
Qed.

Lemma chat_keeps_food_log (s : store) (r : chat_request) :
  food_log (fst (chat_with_nutritionist s r)) = food_log s.
Proof.
  unfold chat_with_nutritionist. destruct (blank (message r)); [reflexivity|].
  destruct (generate (chat_primary r) (chat_fallback r)) as [|[text|]];
    try reflexivity.
  now destruct (is_empty text).
Qed.

Lemma serve_keeps_food_log (s : store) (q : request) :
  is_analysis q = false -> food_log (serve s q) = food_log s.
Proof.
  destruct q; simpl; intros H; try reflexivity; [discriminate|].
  apply chat_keeps_food_log.
Qed.

Lemma serve_all_keeps_food_log (qs : list request) :
  forall s,
    forallb (fun q => negb (is_analysis q)) qs = true ->
    food_log (serve_all s qs) = food_log s.
Proof.
  induction qs as [|q qs IH]; intros s H; [reflexivity|].
  cbn [forallb] in H. apply andb_true_iff in H as [Hq Hqs].
  unfold serve_all. cbn [fold_left]. fold (serve_all (serve s q) qs).
  rewrite (IH _ Hqs). apply serve_keeps_food_log.
  now destruct (is_analysis q).
Qed.

(** C10.  The two queries return without changing the stored state:
    [get_food_log] returns the log with its totals, [get_chat_history] the
    chat history, and the store after each is the store before.  The food
    log is changed by no request other than [analyze_food], which extends
    it: any sequence of requests without an analysis leaves it as it
    was. *)
Theorem queries_leave_store (s : store) :
  get_food_log s = (s, Returned (food_log s, summarize (food_log s)))
  /\ get_chat_history s = (s, Returned (chat_history s))
  /\ serve s GetFoodLog = s
  /\ serve s GetChatHistory = s
  /\ (forall q, is_analysis q = false -> food_log (serve s q) = food_log s)
  /\ (forall qs,
        forallb (fun q => negb (is_analysis q)) qs = true ->
        food_log (serve_all s qs) = food_log s)
  /\ (forall u, exists items,
        food_log (serve s (PostAnalyzeFood u)) = extend (food_log s) items).
Proof.
  repeat split; try reflexivity.
  - apply serve_keeps_food_log.
  - intros qs. apply serve_all_keeps_food_log.
  - intros u. eexists. apply (proj1 (analyze_food_log s u)).
Qed.

(** * Further properties *)

(** ** What a pattern matches *)

Section PatternFacts.

Local Open Scope string_scope.

Variables lbl suffix : string.

Lemma class_star_then_sound (s : string) :
  forall g,
    Re.class_star_then suffix s = Some g -> exists post, s = g ++ suffix ++ post.
Proof.
  induction s as [|c s IH]; intros g; simpl.
  - destruct (PyStr.startswith suffix "") eqn:E; [|discriminate].
    intros [= <-]. apply PyStrFacts.startswith_iff in E. exact E.
  - assert (Hhere : PyStr.startswith suffix (String c s) = true ->
                    exists post, String c s = "" ++ suffix ++ post).
    { intros E. apply PyStrFacts.startswith_iff in E. exact E. }
    destruct (Re.in_class c).
    + destruct (Re.class_star_then suffix s) as [g'|].
      * intros [= <-]. destruct (IH g' eq_refl) as [post ->].
        now exists post.
      * destruct (PyStr.startswith suffix (String c s)); [|discriminate].
        intros [= <-]. now apply Hhere.
    + destruct (PyStr.startswith suffix (String c s)); [|discriminate].
      intros [= <-]. now apply Hhere.
Qed.

Lemma match_here_sound (s token : string) :
  Re.match_here lbl suffix s = Some token ->
  exists post, s = lbl ++ token ++ suffix ++ post.
Proof.
  unfold Re.match_here, Re.class_plus_then.
  destruct (PyStr.startswith lbl s) eqn:E; [|discriminate].
  apply PyStrFacts.startswith_split in E.
  destruct (PyStr.drop (String.length lbl) s) as [|d r]; [discriminate|].
  destruct (Re.in_class d); [|discriminate].
  destruct (Re.class_star_then suffix r) as [g|] eqn:Hg; [|discriminate].
  intros [= <-]. destruct (class_star_then_sound r g Hg) as [post ->].
  now exists post.
Qed.

Lemma search_sound (s token : string) :
  Re.search lbl suffix s = Some token ->
  exists pre post, s = pre ++ lbl ++ token ++ suffix ++ post.
Proof.
  induction s as [|c s IH]; simpl.
  - destruct (Re.match_here lbl suffix "") as [g|] eqn:Hm; [|discriminate].
    intros [= <-]. destruct (match_here_sound _ _ Hm) as [post E].
    now exists "", post.
  - destruct (Re.match_here lbl suffix (String c s)) as [g|] eqn:Hm.
    + intros [= <-]. destruct (match_here_sound _ _ Hm) as [post E].
      now exists "", post.
    + intros H. destruct (IH H) as (pre & post & ->).
      now exists (String c pre), post.
Qed.

Lemma class_star_then_here (s : string) :
  PyStr.startswith suffix s = true ->
  exists g, Re.class_star_then suffix s = Some g.
Proof.
  intros E. destruct s as [|c s]; simpl.
  - rewrite E. now eexists.
  - destruct (Re.in_class c).
    + destruct (Re.class_star_then suffix s); [now eexists|].
      rewrite E. now eexists.
    + rewrite E. now eexists.
Qed.

Lemma class_star_then_complete (token post : string) :
  Re.over_class token = true ->
  exists g, Re.class_star_then suffix (token ++ suffix ++ post) = Some g.
Proof.
  induction token as [|c t IH]; intros H.
  - apply class_star_then_here. cbn [String.append].
    apply PyStrFacts.startswith_app.
  - simpl in H. apply andb_true_iff in H as [Hc Ht].
    destruct (IH Ht) as [g Hg]. simpl. rewrite Hc, Hg. now eexists.
Qed.

Lemma match_here_complete (token post : string) :
  token <> "" -> Re.over_class token = true ->
  exists g, Re.match_here lbl suffix (lbl ++ token ++ suffix ++ post) = Some g.
Proof.
  intros Hne H. unfold Re.match_here.
  rewrite PyStrFacts.startswith_app, PyStrFacts.drop_app.
  destruct token as [|c t]; [congruence|].
  simpl in H. apply andb_true_iff in H as [Hc Ht].
  destruct (class_star_then_complete t post Ht) as [g Hg].
  simpl. rewrite Hc, Hg. now eexists.
Qed.

Lemma search_complete (pre token post : string) :
  token <> "" -> Re.over_class token = true ->
  exists g, Re.search lbl suffix (pre ++ lbl ++ token ++ suffix ++ post) = Some g.
Proof.
  intros Hne H. induction pre as [|c pre IH].
  - destruct (match_here_complete token post Hne H) as [g Hg].
    change ("" ++ lbl ++ token ++ suffix ++ post)
      with (lbl ++ token ++ suffix ++ post).
    destruct (lbl ++ token ++ suffix ++ post); simpl; rewrite Hg; now eexists.
  - simpl.
    destruct (Re.match_here lbl suffix
                (String c (pre ++ lbl ++ token ++ suffix ++ post)));
      [now eexists | exact IH].
Qed.

End PatternFacts.

(** X1.  The pattern of a field matches a line exactly when the line
    contains the label of the field, then a non-empty run of digits and
    points, then the unit; and the group a search returns is such a run,
    standing in the line between the label and the unit. *)
Theorem pattern_matches_occurrence (f : field) (line : string) :
  (pattern_matches f line = true <->
   exists pre token post,
     token <> EmptyString /\ Re.over_class token = true
     /\ line = (pre ++ label f ++ token ++ unit_suffix f ++ post)%string)
  /\ (forall token,
        Re.search (label f) (unit_suffix f) line = Some token ->
        token <> EmptyString /\ Re.over_class token = true
        /\ exists pre post,
             line = (pre ++ label f ++ token ++ unit_suffix f ++ post)%string).
Proof.
  assert (Hs : forall token,
             Re.search (label f) (unit_suffix f) line = Some token ->
             token <> EmptyString /\ Re.over_class token = true
             /\ exists pre post,
                  line = (pre ++ label f ++ token ++ unit_suffix f ++ post)%string).
  { intros token H. destruct (search_token _ _ _ _ H) as [Hc Hne].
    split; [exact Hne|]. split; [exact Hc|]. now apply search_sound. }
  split; [|exact Hs]. unfold pattern_matches. split.
  - destruct (Re.search (label f) (unit_suffix f) line) as [token|] eqn:E;
      [|discriminate].
    intros _. destruct (Hs token eq_refl) as (Hne & Hc & pre & post & Hl).
    now exists pre, token, post.
  - intros (pre & token & post & Hne & Hc & ->).
    destruct (search_complete (label f) (unit_suffix f) pre token post Hne Hc)
      as [g ->].
    reflexivity.
Qed.

(** ** Pieces and lines *)

Section SplitFacts.

Local Open Scope string_scope.
Import PyStr PyStrSpec.

Lemma contains_app_l (x a t : string) :
  contains x a = true -> contains x (a ++ t) = true.
Proof.
  intros H. apply PyStrFacts.contains_iff in H as (u & v & ->).
  apply PyStrFacts.contains_iff. exists u, (v ++ t).
  now rewrite !PyStrFacts.app_assoc.
Qed.

Lemma contains_app_r (x a t : string) :
  contains x t = true -> contains x (a ++ t) = true.
Proof.
  intros H. apply PyStrFacts.contains_iff in H as (u & v & ->).
  apply PyStrFacts.contains_iff. exists (a ++ u), v.
  now rewrite !PyStrFacts.app_assoc.
Qed.

Lemma nonempty_length (sep : string) : sep <> "" -> 1 <= String.length sep.
Proof. destruct sep; [congruence | simpl; lia]. Qed.

(** The text before the first occurrence of [sep] does not contain [sep]. *)
Lemma partition_before_clean (sep s a b : string) :
  sep <> "" -> partition sep s = Some (a, b) -> contains sep a = false.
Proof.
  intros Hsep Hp. destruct (contains sep a) eqn:E; [|reflexivity].
  apply PyStrFacts.contains_iff in E as (u & v & ->).
  pose proof (PyStrFacts.partition_some _ _ _ _ Hp) as Hs.
  pose proof (PyStrFacts.partition_first _ _ _ _ Hp u (v ++ sep ++ b)) as Hf.
  rewrite !PyStrFacts.app_assoc in Hs. specialize (Hf Hs).
  rewrite !PyStrFacts.app_length in Hf.
  pose proof (nonempty_length sep Hsep). lia.
Qed.

Lemma before_clean (sep s : string) :
  sep <> "" -> contains sep (before sep s) = false.
Proof.
  intros Hsep. unfold before.
  destruct (partition sep s) as [[a b]|] eqn:Hp.
  - now apply (partition_before_clean sep s a b).
  - now apply PyStrFacts.partition_none.
Qed.

Lemma before_prefix (sep s : string) : exists t, s = before sep s ++ t.
Proof.
  unfold before. destruct (partition sep s) as [[a b]|] eqn:Hp.
  - exists (sep ++ b). now apply PyStrFacts.partition_some.
  - exists "". now rewrite PyStrFacts.app_empty_r.
Qed.

Lemma split_not_nil (sep s : string) : sep <> "" -> split sep s <> [].
Proof.
  intros Hsep. rewrite (PyStrFacts.split_partition sep s Hsep).
  now destruct (partition sep s) as [[a b]|].
Qed.

Lemma join_cons (sep p : string) (rest : list string) :
  rest <> [] -> join sep (p :: rest) = p ++ sep ++ join sep rest.
Proof. destruct rest; [congruence | reflexivity]. Qed.

Lemma join_split_bounded (sep : string) :
  sep <> "" ->
  forall n s, String.length s <= n -> join sep (split sep s) = s.
Proof.
  intros Hsep. pose proof (nonempty_length sep Hsep) as Hl.
  induction n as [|n IH]; intros s Hn;
    rewrite (PyStrFacts.split_partition sep s Hsep);
    destruct (partition sep s) as [[a b]|] eqn:Hp; try reflexivity;
    pose proof (PyStrFacts.partition_some _ _ _ _ Hp) as Hs;
    assert (Hlen : String.length s
                   = String.length a + (String.length sep + String.length b))
      by (now rewrite Hs at 1; rewrite !PyStrFacts.app_length).
  - lia.
  - rewrite join_cons by now apply split_not_nil.
    rewrite IH by lia. now symmetry.
Qed.

Lemma split_clean_bounded (sep : string) :
  sep <> "" ->
  forall n s,
    String.length s <= n ->
    Forall (fun p => contains sep p = false) (split sep s).
Proof.
  intros Hsep. pose proof (nonempty_length sep Hsep) as Hl.
  induction n as [|n IH]; intros s Hn;
    rewrite (PyStrFacts.split_partition sep s Hsep);
    destruct (partition sep s) as [[a b]|] eqn:Hp;
    try (constructor; [now apply PyStrFacts.partition_none | constructor]);
    pose proof (PyStrFacts.partition_some _ _ _ _ Hp) as Hs;
    assert (Hlen : String.length s
                   = String.length a + (String.length sep + String.length b))
      by (now rewrite Hs at 1; rewrite !PyStrFacts.app_length).
  - lia.
  - constructor; [now apply (partition_before_clean sep s a b)|].
    apply IH. lia.
Qed.

(** Lines are cut at every newline. *)
Lemma split_scan_newline_app (a b : string) :
  forall cur,
    split_scan newline 0 cur (a ++ newline ++ b)
    = (split_scan newline 0 cur a ++ split_scan newline 0 "" b)%list.
Proof.
  unfold newline. induction a as [|c a IH]; intros cur.
  - reflexivity.
  - cbn [String.append split_scan startswith].
    destruct (Ascii.eqb (ascii_of_nat 10) c); cbn [andb];
      [cbn [String.length Nat.sub] | ]; rewrite IH; reflexivity.
Qed.

Lemma lines_of_app (a b : string) :
  lines_of (a ++ newline ++ b) = (lines_of a ++ lines_of b)%list.
Proof. apply split_scan_newline_app. Qed.

Lemma lines_of_single (line : string) :
  contains newline line = false -> lines_of line = [line].
Proof.
  intros H. unfold lines_of.
  rewrite PyStrFacts.split_partition by discriminate.
  apply PyStrFacts.partition_none in H. now rewrite H.
Qed.

Lemma lines_of_join (lines : list string) :
  lines <> [] ->
  Forall (fun line => contains newline line = false) lines ->
  lines_of (join newline lines) = lines.
Proof.
  induction lines as [|l rest IH]; intros Hne HF; [congruence|].
  inversion HF as [|? ? Hl Hrest]; subst.
  destruct rest as [|l' rest'].
  - now apply lines_of_single.
  - rewrite join_cons by discriminate. rewrite lines_of_app.
    rewrite (lines_of_single l Hl), IH by (try discriminate; assumption).
    reflexivity.
Qed.

End SplitFacts.

(** X2.  The lines of a text never contain a newline, there is at least
    one, and joining them with newlines gives the text back; conversely
    every non-empty list of newline-free lines is the list of lines of the
    text obtained by joining them. *)
Theorem lines_round_trip (text : string) :
  lines_of text <> []
  /\ Forall (fun line => PyStr.contains newline line = false) (lines_of text)
  /\ join newline (lines_of text) = text
  /\ (forall lines,
        lines <> [] ->
        Forall (fun line => PyStr.contains newline line = false) lines ->
        lines_of (join newline lines) = lines).
Proof.
  split; [apply split_not_nil; discriminate|].
  split; [apply (split_clean_bounded newline) with (n := String.length text);
          [discriminate | lia]|].
  split; [apply (join_split_bounded newline) with (n := String.length text);
          [discriminate | lia]|].
  apply lines_of_join.
Qed.

(** ** Names *)

Lemma item_name_clean (line : string) :
  PyStr.contains " - " (item_name line) = false
  /\ PyStr.contains "Item: " (item_name line) = false
  /\ (item_name line = "Unknown"
      \/ exists u v, line = (u ++ item_name line ++ v)%string).
Proof.
  unfold item_name.
  destruct (PyStrSpec.partition "Item: " line) as [[a rest]|] eqn:Hp.
  - split; [apply before_clean; discriminate|].
    destruct (before_prefix " - " (PyStrSpec.before "Item: " rest)) as [t2 H2].
    destruct (before_prefix "Item: " rest) as [t1 H1].
    split.
    + destruct (PyStr.contains "Item: "
                  (PyStrSpec.before " - " (PyStrSpec.before "Item: " rest)))
        eqn:E; [|reflexivity].
      apply (contains_app_l _ _ t2) in E. rewrite <- H2 in E.
      rewrite before_clean in E by discriminate. discriminate.
    + right. exists (a ++ "Item: ")%string, (t2 ++ t1)%string.
      rewrite (PyStrFacts.partition_some _ _ _ _ Hp).
      rewrite H1 at 1. rewrite H2 at 1.
      now rewrite !PyStrFacts.app_assoc.
  - repeat split; try reflexivity. now left.
Qed.

Lemma blocks_header_in (lines : list string) (k : nat) (b : block) :
  In b (blocks k lines) -> In (header b) lines.
Proof.
  intros H. apply (in_map header) in H. rewrite blocks_header in H.
  now apply filter_In in H as [H _].
Qed.

(** X3.  The name of a record the parser returns contains neither the
    separator [" - "], nor ["Item: "], nor a newline. *)
Theorem record_names_clean (clock : nat -> string) (text : string)
  (items : list FoodItem) :
  parse_gemini_response clock text = Ok items ->
  forall r n,
    In r items -> name r = Some n ->
    PyStr.contains " - " n = false
    /\ PyStr.contains "Item: " n = false
    /\ PyStr.contains newline n = false.
Proof.
  intros E r n Hin Hn.
  destruct (parse_records clock text items E) as (first & rs & -> & H1 & H2 & HF).
  apply in_app_or in Hin as [Hin|Hin].
  - destruct (silent (preamble (lines_of text))) eqn:Hs.
    + rewrite (H1 eq_refl) in Hin. contradiction.
    + destruct (H2 eq_refl) as (d & -> & _ & Hd & _).
      destruct Hin as [<-|[]]. rewrite Hd in Hn. discriminate.
  - destruct (Forall2_In_l _ _ _ _ HF Hin) as (b & Hb & _ & Hname & _).
    rewrite Hname in Hn. cbn [fresh name] in Hn. injection Hn as <-.
    destruct (item_name_clean (header b)) as (Hc1 & Hc2 & Hsub).
    split; [exact Hc1|]. split; [exact Hc2|].
    destruct Hsub as [->|(u & v & Hl)]; [reflexivity|].
    destruct (PyStr.contains newline (item_name (header b))) eqn:Hnl;
      [|reflexivity].
    apply (contains_app_l _ _ v), (contains_app_r _ u) in Hnl.
    rewrite <- Hl in Hnl.
    pose proof (split_clean_bounded newline ltac:(discriminate)
                  (String.length text) text (le_n _)) as Hclean.
    rewrite Forall_forall in Hclean.
    rewrite (Hclean (header b)) in Hnl; [discriminate|].
    now apply (blocks_header_in _ 0).
Qed.

Lemma record_names_clean_witness :
  parse_gemini_response clock0 multi_line_block
  = Ok [toast_record clock0; egg_record clock0]
  /\ name (egg_record clock0) = Some "Egg"
  /\ PyStr.contains " - " "Egg" = false
  /\ PyStr.contains "Item: " "Egg" = false
  /\ PyStr.contains newline "Egg" = false.
Proof.
  assert (E : parse_gemini_response clock0 multi_line_block
              = Ok [toast_record clock0; egg_record clock0])
    by (vm_compute; reflexivity).
  split; [exact E|]. split; [reflexivity|].
  apply (record_names_clean clock0 multi_line_block _ E (egg_record clock0)).
  - right. left. reflexivity.
  - reflexivity.
Defined.

(** ** One field per line *)

Lemma hit_selected (line : string) (f : field) (token : string) :
  hit line = Some (f, token) -> selected line = Some f.
Proof.
  unfold hit. destruct (is_item line); [discriminate|].
  destruct (selected line) as [g|]; [|discriminate].
  destruct (Re.search (label g) (unit_suffix g) line); [|discriminate].
  now intros [= <- _].
Qed.

(** X4.  A line that is not an item line changes at most one key of the
    dictionary under construction, the key of the first marker of the
    chain [Calories:], [Carbs:], [Proteins:], [Fats:] the line contains: the
    finished items, the timestamp, the name and every other numeric key are
    left as they were, even where the pattern of another key matches. *)
Theorem one_key_per_line (clock : nat -> string) (st st' : pstate)
  (line : string) :
  is_item line = false ->
  parse_line clock st line = Ok st' ->
  food_items st' = food_items st
  /\ ticks st' = ticks st
  /\ timestamp (current_item st') = timestamp (current_item st)
  /\ name (current_item st') = name (current_item st)
  /\ (forall f,
        selected line <> Some f ->
        get f (current_item st') = get f (current_item st)).
Proof.
  intros Hi H. rewrite (parse_line_field clock st line Hi) in H.
  destruct (hit line) as [[g token]|] eqn:Hh.
  - destruct (Float.of_token token) as [v|e]; [|discriminate].
    cbn [bind] in H. injection H as <-.
    cbn [food_items ticks current_item].
    rewrite timestamp_set, name_set. repeat split.
    intros f Hf. rewrite get_set.
    destruct (field_eqb f g) eqn:Hfg; [|reflexivity].
    apply field_eqb_eq in Hfg; subst g.
    now rewrite (hit_selected _ _ _ Hh) in Hf.
  - injection H as <-. now repeat split.
Qed.

Lemma one_key_per_line_witness :
  pattern_matches Carbs carbs_then_calories = true
  /\ exists st',
       parse_line clock0 (mkPstate [] empty_item 0) carbs_then_calories = Ok st'
       /\ get Calories (current_item st') = Some 10%Q
       /\ get Carbs (current_item st') = None.
Proof.
  split; [reflexivity|].
  exists (mkPstate [] (only_calories 10) 0).
  assert (E : parse_line clock0 (mkPstate [] empty_item 0) carbs_then_calories
              = Ok (mkPstate [] (only_calories 10) 0))
    by (vm_compute; reflexivity).
  split; [exact E|]. split; [reflexivity|].
  destruct (one_key_per_line clock0 _ _ carbs_then_calories eq_refl E)
    as (_ & _ & _ & _ & Hf).
  rewrite (Hf Carbs); [reflexivity | discriminate].
Defined.

(** ** The records of a result *)

Lemma Forall2_length_eq {A B : Type} (R : A -> B -> Prop)
  (l : list A) (l' : list B) :
  Forall2 R l l' -> List.length l = List.length l'.
Proof. intros HF. induction HF; simpl; congruence. Qed.

Lemma Forall2_Forall_l {A B : Type} (R : A -> B -> Prop) (P : A -> Prop)
  (l : list A) (l' : list B) :
  (forall a b, R a b -> P a) -> Forall2 R l l' -> Forall P l.
Proof. intros H HF. induction HF; constructor; eauto. Qed.

(** X5.  The last match wins.  Every record of the result is paired, in
    order, with the lines read into it; a numeric key of the record holds
    the number of the last of these lines that assigns the key, and is
    absent when none of them does. *)
Theorem last_match_wins (clock : nat -> string) (text : string)
  (items : list FoodItem) :
  parse_gemini_response clock text = Ok items ->
  Forall2
    (fun r own_lines =>
       forall f,
         match last_hit f own_lines with
         | Some token =>
             exists v, Float.of_token token = Ok v /\ get f r = Some v
         | None => get f r = None
         end)
    items (record_lines (lines_of text)).
Proof.
  intros E.
  destruct (parse_records clock text items E) as (first & rs & -> & H1 & H2 & HF).
  assert (Hkey : forall d r b,
             (forall f, get f d = None) -> fed d b r ->
             forall f,
               match last_hit f b with
               | Some token =>
                   exists v, Float.of_token token = Ok v /\ get f r = Some v
               | None => get f r = None
               end).
  { intros d r b Hd (_ & _ & Hf) f. specialize (Hf f).
    destruct (last_hit f b); [exact Hf|]. now rewrite Hf. }
  unfold record_lines. apply Forall2_app.
  - destruct (silent (preamble (lines_of text))) eqn:Hs.
    + rewrite (H1 eq_refl). constructor.
    + destruct (H2 eq_refl) as (d & -> & Hfed). constructor; [|constructor].
      apply (Hkey empty_item); [now intros [] | exact Hfed].
  - apply Forall2_map_r. revert HF. apply Forall2_weaken.
    intros r b Hfed.
    apply (Hkey (fresh clock (position b) (header b)) r (body b));
      [now intros [] | exact Hfed].
Qed.

Lemma last_match_wins_witness :
  Forall2
    (fun r own_lines =>
       forall f,
         match last_hit f own_lines with
         | Some token =>
             exists v, Float.of_token token = Ok v /\ get f r = Some v
         | None => get f r = None
         end)
    [toast_record clock0; egg_record clock0]
    (record_lines (lines_of multi_line_block)).
Proof.
  apply (last_match_wins clock0 multi_line_block). vm_compute. reflexivity.
Defined.

(** X6.  The result has one record per item line, and one more, in front,
    when a line before the first item line assigns a key. *)
Theorem record_count (clock : nat -> string) (text : string)
  (items : list FoodItem) :
  parse_gemini_response clock text = Ok items ->
  List.length items
  = (if silent (preamble (lines_of text)) then 0 else 1) + item_count text.
Proof.
  intros E.
  destruct (parse_records clock text items E) as (first & rs & -> & H1 & H2 & HF).
  rewrite length_app, (Forall2_length_eq _ _ _ HF).
  unfold item_count.
  rewrite <- (blocks_header (lines_of text) 0), length_map.
  destruct (silent (preamble (lines_of text))).
  - now rewrite (H1 eq_refl).
  - destruct (H2 eq_refl) as (d & -> & _). reflexivity.
Qed.

Lemma record_count_witness :
  List.length [toast_record clock0; egg_record clock0]
  = (if silent (preamble (lines_of multi_line_block)) then 0 else 1)
    + item_count multi_line_block.
Proof.
  apply (record_count clock0 multi_line_block). vm_compute. reflexivity.
Defined.

(** X7.  No record of the result is an empty dictionary; a record has a
    name exactly when it has a timestamp; and every record after the first
    has both. *)
Theorem record_shape (clock : nat -> string) (text : string)
  (items : list FoodItem) :
  parse_gemini_response clock text = Ok items ->
  Forall (fun r => truthy r = true
                   /\ is_some (name r) = is_some (timestamp r)) items
  /\ Forall (fun r => is_some (name r) = true) (tl items).
Proof.
  intros E.
  destruct (parse_records clock text items E) as (first & rs & -> & H1 & H2 & HF).
  assert (Hrs : Forall (fun r => truthy r = true
                                 /\ is_some (name r) = is_some (timestamp r)
                                 /\ is_some (name r) = true) rs).
  { revert HF. apply Forall2_Forall_l. intros r b Hfed.
    split; [now apply (fed_named _ _ _ Hfed)|].
    destruct Hfed as (Ht & Hn & _). now rewrite Ht, Hn. }
  assert (Hrs1 : Forall (fun r => truthy r = true
                                  /\ is_some (name r) = is_some (timestamp r)) rs).
  { revert Hrs. apply Forall_impl. now intros r (? & ? & ?). }
  assert (Hrs2 : Forall (fun r => is_some (name r) = true) rs).
  { revert Hrs. apply Forall_impl. now intros r (? & ? & ?). }
  destruct (silent (preamble (lines_of text))) eqn:Hs.
  - rewrite (H1 eq_refl). cbn [app]. split; [exact Hrs1|].
    destruct rs as [|r rs']; [constructor|]. now inversion Hrs2.
  - destruct (H2 eq_refl) as (d & -> & Hfed). cbn [app tl].
    split; [|exact Hrs2]. constructor; [|exact Hrs1].
    split.
    + now rewrite (fed_empty_truthy _ _ Hfed), Hs.
    + destruct Hfed as (Ht & Hn & _). now rewrite Ht, Hn.
Qed.

Lemma record_shape_witness :
  Forall (fun r => truthy r = true
                   /\ is_some (name r) = is_some (timestamp r))
         [toast_record clock0; egg_record clock0]
  /\ Forall (fun r => is_some (name r) = true)
            (tl [toast_record clock0; egg_record clock0]).
Proof.
  apply (record_shape clock0 multi_line_block). vm_compute. reflexivity.
Defined.

(** ** Texts made of item lines *)

Lemma preamble_item_only (lines : list string) :
  forallb is_item lines = true -> preamble lines = [].
Proof.
  destruct lines as [|line rest]; [reflexivity|]. simpl.
  intros H. apply andb_true_iff in H as [H _]. now rewrite H.
Qed.

Lemma blocks_item_only (lines : list string) :
  forall k,
    forallb is_item lines = true ->
    Forall (fun b => body b = []) (blocks k lines).
Proof.
  induction lines as [|line rest IH]; intros k H; simpl; [constructor|].
  simpl in H. apply andb_true_iff in H as [Hl Hr]. rewrite Hl.
  constructor; [now apply preamble_item_only | now apply IH].
Qed.

Lemma filter_all {A : Type} (p : A -> bool) (l : list A) :
  forallb p l = true -> filter p l = l.
Proof.
  induction l as [|a l IH]; simpl; [reflexivity|].
  intros H. apply andb_true_iff in H as [Ha Hl]. now rewrite Ha, IH.
Qed.

Lemma total_of_absent (f : field) (log : list FoodItem) :
  (forall r, In r log -> get f r = None) -> total_of f log = 0%Q.
Proof.
  unfold total_of, Float.sum. induction log as [|r log IH]; intros H;
    [reflexivity|].
  assert (Hr : get_or_zero f r = 0%Q).
  { unfold get_or_zero. now rewrite (H r (or_introl eq_refl)). }
  cbn [map fold_left]. rewrite Hr.
  change (Float.add 0 0) with 0%Q. apply IH.
  intros r' Hr'. apply H. now right.
Qed.

(** X8.  A text in which every line is an item line, whatever follows the
    marker on each line, yields one record per line and no number at all:
    the numbers written on an item line are never read, and the four totals
    over the result are [0]. *)
Theorem item_lines_carry_no_numbers (clock : nat -> string) (text : string) :
  forallb is_item (lines_of text) = true ->
  exists items,
    parse_gemini_response clock text = Ok items
    /\ List.length items = List.length (lines_of text)
    /\ (forall r f, In r items -> get f r = None)
    /\ summarize items = mkSummary 0 0 0 0.
Proof.
  intros Hall.
  pose proof (item_lines_well_formed text Hall) as Hwf. unfold well_formed in Hwf.
  apply andb_true_iff in Hwf as [Hs Hc].
  destruct (proj1 (parse_returns_iff clock text) Hc) as [items E].
  exists items. split; [exact E|].
  destruct (parse_records clock text items E) as (first & rs & -> & H1 & _ & HF).
  rewrite (H1 Hs) in *. cbn [app] in *.
  assert (Hnone : forall r f, In r rs -> get f r = None).
  { intros r f Hin.
    destruct (Forall2_In_l _ _ _ _ HF Hin) as (b & Hb & _ & _ & Hf).
    pose proof (blocks_item_only (lines_of text) 0 Hall) as Hbody.
    rewrite Forall_forall in Hbody. specialize (Hf f).
    rewrite (Hbody b Hb) in Hf. cbn [last_hit] in Hf. rewrite Hf.
    now destruct f. }
  split; [|split; [exact Hnone|]].
  - rewrite (Forall2_length_eq _ _ _ HF).
    rewrite <- (length_map header), blocks_header. now rewrite filter_all.
  - unfold summarize.
    now rewrite !total_of_absent by (intros r Hr; now apply Hnone).
Qed.

Lemma item_lines_carry_no_numbers_witness :
  exists items,
    parse_gemini_response clock0 apple_banana = Ok items
    /\ List.length items = List.length (lines_of apple_banana)
    /\ (forall r f, In r items -> get f r = None)
    /\ summarize items = mkSummary 0 0 0 0.
Proof.
  apply (item_lines_carry_no_numbers clock0 apple_banana). vm_compute.
  reflexivity.
Defined.

(** ** When the parser returns *)

Lemma is_digit_not_point (c : ascii) :
  Re.is_digit c = true -> Ascii.eqb c "."%char = false.
Proof.
  intros H. destruct (Ascii.eqb c ".") eqn:E; [|reflexivity].
  apply Ascii.eqb_eq in E. subst c. discriminate.
Qed.

Lemma scan_ok_iff (s : string) :
  forall dot m dn any,
    Re.over_class s = true ->
    ((exists v, Float.scan dot m dn any s = Ok v) <->
     (if dot then 1 else 0) + points s <= 1 /\ (any = true \/ 1 <= digits s)).
Proof.
  induction s as [|c s IH]; intros dot m dn any H.
  - cbn [Float.scan points digits]. destruct any, dot; split;
      try (intros [v Hv]; discriminate); try (intros _; now eexists);
      try (intros [_ [?|?]]; (discriminate || lia)); intros _; split; auto.
  - cbn [Re.over_class] in H. apply andb_true_iff in H as [Hc Hs].
    cbn [Float.scan points digits]. destruct (Re.is_digit c) eqn:Hd.
    + rewrite (is_digit_not_point c Hd). rewrite (IH _ _ _ _ Hs).
      split; intros [H1 H2]; (split; [lia | first [now left | right; lia]]).
    + unfold Re.in_class in Hc. rewrite Hd in Hc. cbn [orb] in Hc. rewrite Hc.
      destruct dot.
      * split; [intros [v Hv]; discriminate | intros [H1 _]; lia].
      * rewrite (IH _ _ _ _ Hs). split; intros [H1 H2]; (split; [lia|]);
          destruct H2 as [H2|H2]; first [now left | right; lia].
Qed.

Lemma of_token_ok_iff (token : string) :
  Re.over_class token = true ->
  ((exists v, Float.of_token token = Ok v) <->
   points token <= 1 /\ 1 <= digits token).
Proof.
  intros H. unfold Float.of_token. rewrite (scan_ok_iff token _ _ _ _ H).
  cbn [Nat.add]. split; intros [H1 H2]; (split; [exact H1|]).
  - destruct H2; [discriminate | assumption].
  - now right.
Qed.

Lemma hit_token_class (line : string) (f : field) (token : string) :
  hit line = Some (f, token) -> Re.over_class token = true.
Proof.
  unfold hit. destruct (is_item line); [discriminate|].
  destruct (selected line) as [g|]; [|discriminate].
  destruct (Re.search (label g) (unit_suffix g) line) as [t|] eqn:E;
    [|discriminate].
  intros [= <- <-]. now destruct (search_token _ _ _ _ E).
Qed.

Lemma convertible_iff (line : string) :
  convertible line = true <->
  forall f token,
    hit line = Some (f, token) -> points token <= 1 /\ 1 <= digits token.
Proof.
  unfold convertible. destruct (hit line) as [[g t]|] eqn:Hh.
  - pose proof (of_token_ok_iff t (hit_token_class _ _ _ Hh)) as Hiff.
    destruct (Float.of_token t) as [v|e].
    + split; [|reflexivity]. intros _ f token [= <- <-].
      apply Hiff. now exists v.
    + split; [discriminate|]. intros H.
      destruct (proj2 Hiff (H g t eq_refl)) as [v Hv]. discriminate.
  - split; [|reflexivity]. intros _ f token H. discriminate.
Qed.

(** X9.  The parser returns a result exactly when every token a line of
    the text assigns from has at least one digit and at most one point; on
    every other text it raises, and the exception is [ValueError]. *)
Theorem parser_domain (clock : nat -> string) (text : string) :
  ((exists items, parse_gemini_response clock text = Ok items) <->
   (forall line f token,
      In line (lines_of text) -> hit line = Some (f, token) ->
      points token <= 1 /\ 1 <= digits token))
  /\ (forall e, parse_gemini_response clock text = Raise e -> e = ValueError).
Proof.
  destruct (parse_returns_iff clock text) as [Hok Hraise].
  assert (Hall : forallb convertible (lines_of text) = true <->
                 forall line f token,
                   In line (lines_of text) -> hit line = Some (f, token) ->
                   points token <= 1 /\ 1 <= digits token).
  { rewrite forallb_forall. split.
    - intros H line f token Hin. now apply convertible_iff, H.
    - intros H line Hin. apply convertible_iff. intros f token.
      now apply H. }
  split; [split|].
  - intros [items E]. apply Hall.
    destruct (forallb convertible (lines_of text)); [reflexivity|].
    rewrite (Hraise eq_refl) in E. discriminate.
  - intros H. now apply Hok, Hall.
  - intros e E. destruct (forallb convertible (lines_of text)).
    + destruct (Hok eq_refl) as [items E']. congruence.
    + rewrite (Hraise eq_refl) in E. congruence.
Qed.

(** ** Texts put together *)

Section Composition.

Variable clock : nat -> string.

Lemma parse_lines_app (l1 l2 : list string) :
  forall st,
    parse_lines clock st (l1 ++ l2)
    = (st1 <- parse_lines clock st l1 ;; parse_lines clock st1 l2).
Proof.
  induction l1 as [|line rest IH]; intros st; [reflexivity|].
  cbn [app parse_lines].
  destruct (parse_line clock st line) as [st1|e]; [|reflexivity].
  cbn [bind]. apply IH.
Qed.

Lemma parse_lines_ticks (lines : list string) :
  forall st st',
    parse_lines clock st lines = Ok st' ->
    ticks st' = ticks st + List.length (filter is_item lines).
Proof.
  induction lines as [|line rest IH]; intros st st' H; cbn [parse_lines] in H.
  - injection H as <-. simpl. lia.
  - cbn [filter]. destruct (is_item line) eqn:Hi.
    + rewrite (parse_line_item clock st line Hi) in H. cbn [bind] in H.
      rewrite (IH _ _ H). simpl. lia.
    + rewrite (parse_line_field clock st line Hi) in H.
      destruct (hit line) as [[g token]|].
      * destruct (Float.of_token token); [|discriminate].
        cbn [bind] in H. now rewrite (IH _ _ H).
      * cbn [bind] in H. now rewrite (IH _ _ H).
Qed.

(** A run of the loop does not look at the items already finished, and it
    sees the clock only through its readings from the current one on. *)
Lemma parse_lines_frame (pre : list FoodItem) (n : nat) (lines : list string) :
  forall items cur k,
    parse_lines clock (mkPstate (pre ++ items) cur (n + k)) lines
    = match parse_lines (later clock n) (mkPstate items cur k) lines with
      | Ok st' =>
          Ok (mkPstate (pre ++ food_items st') (current_item st')
                (n + ticks st'))
      | Raise e => Raise e
      end.
Proof.
  induction lines as [|line rest IH]; intros items cur k; [reflexivity|].
  cbn [parse_lines]. destruct (is_item line) eqn:Hi.
  - rewrite !(parse_line_item _ _ line Hi). cbn [bind].
    unfold finish. cbn [food_items current_item ticks].
    replace (S (n + k)) with (n + S k) by lia.
    replace (fresh clock (n + k) line) with (fresh (later clock n) k line)
      by reflexivity.
    destruct (truthy cur).
    + rewrite <- app_assoc. apply IH.
    + apply IH.
  - rewrite !(parse_line_field _ _ line Hi).
    destruct (hit line) as [[g token]|]; [|cbn [bind]; apply IH].
    destruct (Float.of_token token) as [v|e]; [|reflexivity].
    cbn [bind food_items current_item ticks]. apply IH.
Qed.

End Composition.

Lemma first_line_item (text : string) :
  is_item text = true ->
  exists h rest, lines_of text = h :: rest /\ is_item h = true.
Proof.
  intros H. unfold lines_of.
  rewrite PyStrFacts.split_partition by discriminate.
  destruct (PyStrSpec.partition newline text) as [[a b]|] eqn:Hp.
  - exists a, (PyStr.split newline b). split; [reflexivity|].
    unfold is_item in H. apply PyStrFacts.startswith_split in H.
    rewrite H in Hp. revert Hp.
    generalize (PyStr.drop (String.length "- Item:") text). intros t.
    unfold newline. simpl.
    destruct (PyStrSpec.partition (String (ascii_of_nat 10) "") t)
      as [[a' b']|]; [|discriminate].
    now intros [= <- <-].
  - now exists text, [].
Qed.

(** X10.  Parsing two texts joined by a newline, the second of which
    begins with an item line, gives the records of the first followed by
    the records of the second, the second being parsed with the clock as it
    is after the item lines of the first; and it raises when one of the two
    does. *)
Theorem parse_concat (clock : nat -> string) (t1 t2 : string) :
  is_item t2 = true ->
  parse_gemini_response clock (t1 ++ newline ++ t2)
  = (items1 <- parse_gemini_response clock t1 ;;
     items2 <- parse_gemini_response (later clock (item_count t1)) t2 ;;
     Ok (items1 ++ items2)).
Proof.
  intros Hi. unfold parse_gemini_response. fold newline.
  fold (lines_of (t1 ++ newline ++ t2)) (lines_of t1) (lines_of t2).
  rewrite lines_of_app, parse_lines_app.
  destruct (parse_lines clock (mkPstate [] empty_item 0) (lines_of t1))
    as [st1|e] eqn:E1; [|reflexivity].
  cbn [bind].
  pose proof (parse_lines_ticks clock _ _ _ E1) as Ht.
  cbn [ticks] in Ht. fold (item_count t1) in Ht. cbn [Nat.add] in Ht.
  destruct (first_line_item t2 Hi) as (h & rest & -> & Hh).
  cbn [parse_lines]. rewrite !(parse_line_item _ _ h Hh). cbn [bind].
  cbn [ticks]. rewrite <- Ht.
  replace (fresh (later clock (ticks st1)) 0 h) with (fresh clock (ticks st1) h)
    by (unfold fresh, later; now rewrite Nat.add_0_r).
  pose proof (parse_lines_frame clock (finish st1) (ticks st1) rest []
                (fresh clock (ticks st1) h) 1) as Hf.
  rewrite app_nil_r in Hf. replace (ticks st1 + 1) with (S (ticks st1)) in Hf by lia.
  change (finish (mkPstate [] empty_item 0)) with (@nil FoodItem).
  rewrite Hf.
  destruct (parse_lines (later clock (ticks st1))
              (mkPstate [] (fresh clock (ticks st1) h) 1) rest) as [st2|e2];
    [|reflexivity].
  cbn [bind]. rewrite !finish_app. cbn [food_items current_item].
  now rewrite app_assoc.
Qed.

Lemma parse_concat_witness :
  parse_gemini_response clock0 (toast_text ++ newline ++ banana_line)
  = (items1 <- parse_gemini_response clock0 toast_text ;;
     items2 <- parse_gemini_response (later clock0 (item_count toast_text))
                 banana_line ;;
     Ok (items1 ++ items2)).
Proof. apply (parse_concat clock0 toast_text banana_line). reflexivity. Defined.

(** X11.  A line that is neither an item line nor a line that assigns a
    key does not change the result, wherever it stands: between two parts
    of the text, as its first line, as its last line, or alone, the text
    parses as it does without the line. *)
Theorem narrative_line_ignored (clock : nat -> string) (a line b : string) :
  is_item line = false -> hit line = None ->
  PyStr.contains newline line = false ->
  parse_gemini_response clock (a ++ newline ++ line ++ newline ++ b)
  = parse_gemini_response clock (a ++ newline ++ b)
  /\ parse_gemini_response clock (line ++ newline ++ b)
     = parse_gemini_response clock b
  /\ parse_gemini_response clock (a ++ newline ++ line)
     = parse_gemini_response clock a
  /\ parse_gemini_response clock line = Ok [].
Proof.
  intros Hi Hh Hnl.
  assert (Hline : forall st, parse_line clock st line = Ok st).
  { intros st. now rewrite (parse_line_field clock st line Hi), Hh. }
  unfold parse_gemini_response. fold newline.
  fold (lines_of (a ++ newline ++ line ++ newline ++ b))
       (lines_of (a ++ newline ++ b)) (lines_of (line ++ newline ++ b))
       (lines_of (a ++ newline ++ line)) (lines_of a) (lines_of b)
       (lines_of line).
  rewrite !lines_of_app, (lines_of_single line Hnl), !parse_lines_app.
  repeat split.
  - destruct (parse_lines clock (mkPstate [] empty_item 0) (lines_of a))
      as [st1|e]; [|reflexivity].
    cbn [bind app parse_lines]. now rewrite Hline.
  - cbn [parse_lines bind]. now rewrite Hline.
  - destruct (parse_lines clock (mkPstate [] empty_item 0) (lines_of a))
      as [st1|e]; [|reflexivity].
    cbn [bind parse_lines]. now rewrite Hline.
  - cbn [parse_lines bind]. now rewrite Hline.
Qed.

Lemma narrative_line_ignored_witness :
  parse_gemini_response clock0
    ("- Item: Toast" ++ newline ++ "Enjoy your meal" ++ newline
     ++ "Calories: 75.5 kcal")
  = parse_gemini_response clock0
      ("- Item: Toast" ++ newline ++ "Calories: 75.5 kcal")
  /\ parse_gemini_response clock0
       ("Enjoy your meal" ++ newline ++ "Calories: 75.5 kcal")
     = parse_gemini_response clock0 "Calories: 75.5 kcal"
  /\ parse_gemini_response clock0 ("- Item: Toast" ++ newline ++ "Enjoy your meal")
     = parse_gemini_response clock0 "- Item: Toast"
  /\ parse_gemini_response clock0 "Enjoy your meal" = Ok [].
Proof.
  apply (narrative_line_ignored clock0 "- Item: Toast" "Enjoy your meal"
           "Calories: 75.5 kcal"); reflexivity.
Defined.

(** ** The handlers *)

(** The handler is its [try] statement. *)
Lemma analyze_food_try_eq (s : store) (u : upload) :
  analyze_food_try s u = analyze_food s u.
Proof.
  unfold analyze_food_try, analyze_food_body, analyze_food.
  destruct (content_type u) as [ct|]; [|reflexivity].
  destruct (negb (PyStr.startswith "image/" ct)); [reflexivity|].
  destruct (5 * 1024 * 1024 <? content_length u)%N; [reflexivity|].
  destruct (generate (image_primary u) (image_fallback u)) as [|[text|]];
    try reflexivity.
  destruct (is_empty text); [reflexivity|].
  now destruct (parse_gemini_response (upload_clock u) text).
Qed.

(** X12.  Whatever is raised inside the [try] of [analyze_food], the two
    rejections raised with status 400 included (a content type that does not
    start with [image/], an image of more than 5 MiB), the exception that
    leaves the handler has status 500, and the handler has changed neither
    list: no status 400 ever leaves [analyze_food].  This is about the
    handler; what is done with a response it returns is not part of it. *)
Theorem analysis_failure_500 (s : store) (u : upload) (e : raised) :
  snd (analyze_food_body s u) = inr e ->
  analyze_food s u = (s, HTTPError 500)
  /\ (forall ct,
        content_type u = Some ct ->
        PyStr.startswith "image/" ct = false
        \/ (5 * 1024 * 1024 < content_length u)%N ->
        e = RaisedHTTP 400).
Proof.
  intros H. rewrite <- analyze_food_try_eq. unfold analyze_food_try.
  rewrite H. cbn [except_exception]. revert H. unfold analyze_food_body.
  destruct (content_type u) as [ct|].
  - destruct (PyStr.startswith "image/" ct) eqn:Hct; cbn [negb].
    + destruct (5 * 1024 * 1024 <? content_length u)%N eqn:Hsize.
      * intros [= <-]. split; [reflexivity|]. now intros ct' _ _.
      * apply N.ltb_ge in Hsize.
        assert (Hno : forall ct' (e' : raised),
                   Some ct = Some ct' ->
                   PyStr.startswith "image/" ct' = false
                   \/ (5 * 1024 * 1024 < content_length u)%N ->
                   e' = RaisedHTTP 400).
        { intros ct' e' [= <-] [Hf|Hlt]; [congruence | lia]. }
        destruct (generate (image_primary u) (image_fallback u))
          as [|[text|]].
        -- intros [= <-]. split; [reflexivity | intros ct'; apply Hno].
        -- destruct (is_empty text).
           ++ intros [= <-]. split; [reflexivity | intros ct'; apply Hno].
           ++ destruct (parse_gemini_response (upload_clock u) text);
                [discriminate|].
              intros [= <-]. split; [reflexivity | intros ct'; apply Hno].
        -- intros [= <-]. split; [reflexivity | intros ct'; apply Hno].
    + intros [= <-]. split; [reflexivity|]. now intros ct' _ _.
  - intros [= <-]. split; [reflexivity|]. intros ct' Hc. discriminate.
Qed.

Lemma analysis_failure_500_witness :
  snd (analyze_food_body initial_store text_upload) = inr (RaisedHTTP 400)
  /\ analyze_food initial_store text_upload = (initial_store, HTTPError 500).
Proof.
  split; [reflexivity|].
  apply (analysis_failure_500 initial_store text_upload (RaisedHTTP 400)).
  reflexivity.
Defined.

(** X13.  A successful analysis passed every gate: the content type
    starts with [image/], the image has at most 5 MiB, the model text, from
    the first call or, when that one raised, from the second, is not empty,
    and the parser returned on it.  The response carries that text, the
    parsed items, the extended log and the totals of the extended log, and
    a [get_food_log] that follows returns the same log and totals. *)
Theorem analysis_success (s s' : store) (u : upload) (a : analysis) :
  analyze_food s u = (s', Returned a) ->
  (exists ct, content_type u = Some ct /\ PyStr.startswith "image/" ct = true)
  /\ (content_length u <= 5242880)%N
  /\ generate (image_primary u) (image_fallback u)
     = Generated (Some (analysis_text a))
  /\ analysis_text a <> EmptyString
  /\ parse_gemini_response (upload_clock u) (analysis_text a)
     = Ok (analysis_items a)
  /\ food_log s' = food_log s ++ analysis_items a
  /\ chat_history s' = chat_history s
  /\ analysis_log a = food_log s'
  /\ analysis_summary a = summarize (food_log s')
  /\ get_food_log s' = (s', Returned (analysis_log a, analysis_summary a)).
Proof.
  unfold analyze_food.
  destruct (content_type u) as [ct|]; [|discriminate].
  destruct (PyStr.startswith "image/" ct) eqn:Hct; [|discriminate].
  cbn [negb].
  destruct (5 * 1024 * 1024 <? content_length u)%N eqn:Hsize; [discriminate|].
  destruct (generate (image_primary u) (image_fallback u)) as [|[text|]];
    try discriminate.
  destruct (is_empty text) eqn:Hne; [discriminate|].
  destruct (parse_gemini_response (upload_clock u) text) as [items|e] eqn:Hp;
    [|discriminate].
  intros [= <- <-]. cbn [analysis_text analysis_items analysis_log
                         analysis_summary food_log chat_history].
  repeat split; try reflexivity; try assumption.
  - now exists ct.
  - apply N.ltb_ge in Hsize. exact Hsize.
  - intros ->. discriminate.
Qed.

Lemma analysis_success_witness :
  exists s' a,
    analyze_food initial_store (good_upload toast_text) = (s', Returned a)
    /\ food_log s' = food_log initial_store ++ analysis_items a
    /\ get_food_log s' = (s', Returned (analysis_log a, analysis_summary a)).
Proof.
  eexists. eexists.
  assert (E : analyze_food initial_store (good_upload toast_text)
              = (mkStore [mkFoodItem (Some (clock0 0)) (Some "Toast")
                            (Some (151 # 2)%Q) None None None] [],
                 Returned
                   (mkAnalysis toast_text
                      [mkFoodItem (Some (clock0 0)) (Some "Toast")
                         (Some (151 # 2)%Q) None None None]
                      [mkFoodItem (Some (clock0 0)) (Some "Toast")
                         (Some (151 # 2)%Q) None None None]
                      (mkSummary (151 # 2) 0 0 0))))
    by (vm_compute; reflexivity).
  split; [exact E|].
  destruct (analysis_success _ _ _ _ E)
    as (_ & _ & _ & _ & _ & Hlog & _ & _ & _ & Hget).
  split; [exact Hlog | exact Hget].
Defined.

(** X14.  A chat request either fails, with status 500 and the store
    unchanged, or returns the model text: the message is then not blank,
    the text is not empty and comes from the first call or, when that one
    raised, from the second, the food log is untouched, and the chat
    history has exactly one more entry, at its end, made of the message and
    the text. *)
Theorem chat_outcome (s : store) (r : chat_request) :
  (exists text,
     snd (chat_with_nutritionist s r) = Returned text
     /\ blank (message r) = false
     /\ text <> EmptyString
     /\ generate (chat_primary r) (chat_fallback r) = Generated (Some text)
     /\ food_log (fst (chat_with_nutritionist s r)) = food_log s
     /\ chat_history (fst (chat_with_nutritionist s r))
        = chat_history s ++ [mkChatTurn (message r) text])
  \/ (snd (chat_with_nutritionist s r) = HTTPError 500
      /\ fst (chat_with_nutritionist s r) = s).
Proof.
  unfold chat_with_nutritionist.
  destruct (blank (message r)); [now right|].
  destruct (generate (chat_primary r) (chat_fallback r)) as [|[text|]];
    try (now right).
  destruct (is_empty text) eqn:Hne; [now right|].
  left. exists text. repeat split. intros ->. discriminate.
Qed.

(** ** Sequences of requests *)

Lemma serve_step (s : store) (q : request) :
  exists new_items new_turns,
    food_log (serve s q) = food_log s ++ new_items
    /\ chat_history (serve s q) = chat_history s ++ new_turns
    /\ List.length new_turns <= chat_count [q]
    /\ (is_analysis q = false -> new_items = []).
Proof.
  destruct q as [u|r| |]; cbn [serve].
  - destruct (analyze_food_log s u) as [Hl Hc]. eexists. exists [].
    split; [exact Hl|]. rewrite Hc, app_nil_r. repeat split.
    + simpl. lia.
    + discriminate.
  - exists [].
    unfold chat_with_nutritionist.
    destruct (blank (message r));
      [exists []; rewrite !app_nil_r; repeat split; simpl; lia|].
    destruct (generate (chat_primary r) (chat_fallback r)) as [|[text|]];
      try (exists []; rewrite !app_nil_r; repeat split; simpl; lia).
    destruct (is_empty text);
      [exists []; rewrite !app_nil_r; repeat split; simpl; lia|].
    exists [mkChatTurn (message r) text]. rewrite app_nil_r.
    repeat split. unfold chat_count. simpl. lia.
  - exists [], []. rewrite !app_nil_r. repeat split. simpl. lia.
  - exists [], []. rewrite !app_nil_r. repeat split. simpl. lia.
Qed.

Lemma chat_count_cons (q : request) (qs : list request) :
  chat_count (q :: qs) = chat_count [q] + chat_count qs.
Proof. unfold chat_count. simpl. now destruct q. Qed.

(** X15.  Both stored lists only grow at their end: after any sequence of
    requests the food log and the chat history begin with what they held
    before, and the chat history has gained at most one entry per chat
    request. *)
Theorem lists_append_only (qs : list request) (s : store) :
  exists new_items new_turns,
    food_log (serve_all s qs) = food_log s ++ new_items
    /\ chat_history (serve_all s qs) = chat_history s ++ new_turns
    /\ List.length new_turns <= chat_count qs.
Proof.
  revert s. induction qs as [|q qs IH]; intros s.
  - exists [], []. rewrite !app_nil_r. repeat split. simpl. lia.
  - unfold serve_all. cbn [fold_left]. fold (serve_all (serve s q) qs).
    destruct (IH (serve s q)) as (fi & ct & Hf & Hc & Hn).
    destruct (serve_step s q) as (fi0 & ct0 & Hf0 & Hc0 & Hn0 & _).
    exists (fi0 ++ fi), (ct0 ++ ct).
    rewrite Hf, Hc, Hf0, Hc0, !app_assoc, length_app, chat_count_cons.
    repeat split. lia.
Qed.

(** ** Totals over time *)

Lemma field_sum_app (f : field) (l1 l2 : list FoodItem) :
  (field_sum f (l1 ++ l2) == field_sum f l1 + field_sum f l2)%Q.
Proof.
  induction l1 as [|r l1 IH]; simpl.
  - now rewrite Qplus_0_l.
  - rewrite IH. apply Qplus_assoc.
Qed.

Lemma field_sum_nonneg (f : field) (log : list FoodItem) :
  nonneg_log log -> (0 <= field_sum f log)%Q.
Proof.
  intros H. induction H as [|r log Hr _ IH]; simpl; [apply Qle_refl|].
  replace 0%Q with (0 + 0)%Q by reflexivity. apply Qplus_le_compat; [|exact IH].
  destruct (get f r) as [v|] eqn:E; [now apply (Hr f) | apply Qle_refl].
Qed.

Lemma total_summarize (f : field) (log : list FoodItem) :
  total f (summarize log) = total_of f log.
Proof. now destruct f. Qed.

Lemma parse_nonneg_log (clock : nat -> string) (text : string)
  (items : list FoodItem) :
  parse_gemini_response clock text = Ok items -> nonneg_log items.
Proof.
  intros E.
  destruct (parse_records clock text items E) as (first & rs & -> & H1 & H2 & HF).
  apply Forall_app. split.
  - destruct (silent (preamble (lines_of text))) eqn:Hs.
    + rewrite (H1 eq_refl). constructor.
    + destruct (H2 eq_refl) as (d & -> & Hfed). constructor; [|constructor].
      intros f v Hg.
      apply (fed_nonneg empty_item d _ f v Hfed); [now destruct f | exact Hg].
  - revert HF. apply Forall2_Forall_l. intros r b Hfed f v Hg.
    apply (fed_nonneg _ r _ f v Hfed); [now destruct f | exact Hg].
Qed.

Lemma serve_nonneg (s : store) (q : request) :
  nonneg_log (food_log s) ->
  exists new_items,
    food_log (serve s q) = food_log s ++ new_items /\ nonneg_log new_items.
Proof.
  intros Hs. destruct (is_analysis q) eqn:Hq.
  - destruct q as [u| | |]; try discriminate. cbn [serve].
    unfold analyze_food, extend.
    assert (Hsame : exists new_items,
               food_log s = food_log s ++ new_items /\ nonneg_log new_items).
    { exists []. rewrite app_nil_r. split; [reflexivity | constructor]. }
    destruct (content_type u) as [ct|]; [|exact Hsame].
    destruct (negb (PyStr.startswith "image/" ct)); [exact Hsame|].
    destruct (5 * 1024 * 1024 <? content_length u)%N; [exact Hsame|].
    destruct (generate (image_primary u) (image_fallback u)) as [|[text|]];
      try exact Hsame.
    destruct (is_empty text); [exact Hsame|].
    destruct (parse_gemini_response (upload_clock u) text) as [items|e] eqn:E;
      [|exact Hsame].
    exists items. split; [reflexivity|]. exact (parse_nonneg_log _ _ _ E).
  - exists []. rewrite app_nil_r, (serve_keeps_food_log s q Hq).
    split; [reflexivity | constructor].
Qed.

Lemma serve_all_nonneg (qs : list request) :
  forall s,
    nonneg_log (food_log s) -> nonneg_log (food_log (serve_all s qs)).
Proof.
  induction qs as [|q qs IH]; intros s Hs; [exact Hs|].
  unfold serve_all. cbn [fold_left]. fold (serve_all (serve s q) qs).
  apply IH. destruct (serve_nonneg s q Hs) as (fi & -> & Hfi).
  apply Forall_app. now split.
Qed.

(** X17.  Starting from the empty lists, whatever the requests served: no
    record of the food log holds a negative number, the four totals are
    non-negative, and serving one more request never lowers a total. *)
Theorem totals_never_decrease (qs : list request) (q : request) (f : field) :
  nonneg_log (food_log (serve_all initial_store qs))
  /\ (0 <= total f (summarize (food_log (serve_all initial_store qs))))%Q
  /\ (total f (summarize (food_log (serve_all initial_store qs)))
      <= total f (summarize
                    (food_log (serve (serve_all initial_store qs) q))))%Q.
Proof.
  assert (Hinv : nonneg_log (food_log (serve_all initial_store qs))).
  { apply serve_all_nonneg. constructor. }
  split; [exact Hinv|]. split.
  - rewrite total_summarize, total_of_field_sum. now apply field_sum_nonneg.
  - destruct (serve_nonneg _ q Hinv) as (fi & -> & Hfi).
    rewrite !total_summarize, !total_of_field_sum, field_sum_app.
    rewrite <- (Qplus_0_r (field_sum f (food_log (serve_all initial_store qs))))
      at 1.
    apply Qplus_le_compat; [apply Qle_refl | now apply field_sum_nonneg].
Qed.

(** ** Blank messages *)

Lemma rstrip_keeps (c : ascii) (s : string) :
  is_space c = false -> rstrip (String c s) <> EmptyString.
Proof.
  intros H. cbn [rstrip]. destruct (rstrip s); [now rewrite H | discriminate].
Qed.

(** X18.  A chat message is rejected as empty exactly when it is made of
    whitespace only: [message.strip()] is the empty string if and only if
    every character of the message is a whitespace character, and such a
    message is answered with status 500 and leaves the store unchanged. *)
Theorem blank_message_rejected (s : store) (r : chat_request) :
  (strip (message r) = EmptyString <-> blank (message r) = true)
  /\ (blank (message r) = true ->
      chat_with_nutritionist s r = (s, HTTPError 500)).
Proof.
  split.
  - unfold strip. induction (message r) as [|c m IH]; [now split|].
    cbn [lstrip blank]. destruct (is_space c) eqn:Hc; [exact IH|].
    cbn [andb]. split; [|discriminate].
    intros H. now apply rstrip_keeps in H.
  - intros H. unfold chat_with_nutritionist. now rewrite H.
Qed.

(** ** The clock *)

(** X19.  The clock is read once per item line, in order: leaving out the
    record that lines before the first item line may have produced, the
    [i]-th record of the result carries the [i]-th reading of the clock. *)
Theorem timestamps_in_order (clock : nat -> string) (text : string)
  (items : list FoodItem) :
  parse_gemini_response clock text = Ok items ->
  map timestamp
      (skipn (if silent (preamble (lines_of text)) then 0 else 1) items)
  = map (fun i => Some (clock i)) (seq 0 (item_count text)).
Proof.
  intros E.
  destruct (parse_records clock text items E) as (first & rs & -> & H1 & H2 & HF).
  assert (Hrs : map timestamp rs
                = map (fun i => Some (clock i)) (seq 0 (item_count text))).
  { unfold item_count.
    rewrite <- (blocks_position (lines_of text) 0), map_map.
    apply (Forall2_map_eq _ _ _ _ _ (fun r b Hrb => proj1 Hrb) HF). }
  destruct (silent (preamble (lines_of text))).
  - now rewrite (H1 eq_refl).
  - destruct (H2 eq_refl) as (d & -> & _). exact Hrs.
Qed.

Lemma timestamps_in_order_witness :
  map timestamp
      (skipn (if silent (preamble (lines_of multi_line_block)) then 0 else 1)
             [toast_record clock0; egg_record clock0])
  = map (fun i => Some (clock0 i)) (seq 0 (item_count multi_line_block)).
Proof.
  apply (timestamps_in_order clock0 multi_line_block). vm_compute. reflexivity.
Defined.

Section TwoClocks.

Variables clock1 clock2 : nat -> string.

Lemma untimed_set (f : field) (v : pyfloat) (d : FoodItem) :
  untimed (set f v d) = set f v (untimed d).
Proof. now destruct f. Qed.

Lemma truthy_untimed (d1 d2 : FoodItem) :
  untimed d1 = untimed d2 ->
  is_some (timestamp d1) = is_some (timestamp d2) ->
  truthy d1 = truthy d2.
Proof.
  unfold untimed, truthy. intros [= Hn Hc Hk Hp Hf] Ht.
  now rewrite Hn, Hc, Hk, Hp, Hf, Ht.
Qed.

Lemma parse_lines_two_clocks (lines : list string) :
  forall st1 st2,
    map untimed (food_items st1) = map untimed (food_items st2) ->
    untimed (current_item st1) = untimed (current_item st2) ->
    is_some (timestamp (current_item st1))
    = is_some (timestamp (current_item st2)) ->
    match parse_lines clock1 st1 lines, parse_lines clock2 st2 lines with
    | Ok a, Ok b => map untimed (finish a) = map untimed (finish b)
    | Raise e1, Raise e2 => e1 = e2
    | _, _ => False
    end.
Proof.
  induction lines as [|line rest IH]; intros st1 st2 Hi Hc Ht.
  - cbn [parse_lines]. rewrite !finish_app, !map_app, Hi.
    rewrite (truthy_untimed _ _ Hc Ht).
    destruct (truthy (current_item st2)); simpl; now rewrite ?Hc.
  - cbn [parse_lines]. destruct (is_item line) eqn:Hl.
    + rewrite !(parse_line_item _ _ line Hl). cbn [bind].
      apply IH; cbn [food_items current_item]; try reflexivity.
      rewrite !finish_app, !map_app, Hi, (truthy_untimed _ _ Hc Ht).
      destruct (truthy (current_item st2)); simpl; now rewrite ?Hc.
    + rewrite !(parse_line_field _ _ line Hl).
      destruct (hit line) as [[g token]|]; [|cbn [bind]; now apply IH].
      destruct (Float.of_token token) as [v|e]; [|reflexivity].
      cbn [bind].
      apply IH; cbn [food_items current_item]; try assumption.
      * now rewrite !untimed_set, Hc.
      * now rewrite !timestamp_set.
Qed.

End TwoClocks.

(** X20.  The time of the call shows in the timestamps only: with two
    different clocks the parser returns on the same texts and raises the
    same exception on the others, and the records it returns are the same
    once their timestamps are left out. *)
Theorem clock_only_in_timestamps (clock1 clock2 : nat -> string)
  (text : string) :
  match parse_gemini_response clock1 text, parse_gemini_response clock2 text with
  | Ok items1, Ok items2 => map untimed items1 = map untimed items2
  | Raise e1, Raise e2 => e1 = e2
  | _, _ => False
  end.
Proof.
  unfold parse_gemini_response.
  pose proof (parse_lines_two_clocks clock1 clock2
                (PyStr.split (String (ascii_of_nat 10) "") text)
                (mkPstate [] empty_item 0) (mkPstate [] empty_item 0)
                eq_refl eq_refl eq_refl) as H.
  destruct (parse_lines clock1 _ _), (parse_lines clock2 _ _); exact H.
Qed.
